(** * Design-system server: a shallow embedding of [server.py]

    The development follows the Python source function by function.

    - Python [str] values are sequences of Unicode code points: [list N].
    - [str.strip], [str.endswith], [in], [str.replace] and the two [re.sub]
      calls of [clean_html] are written out as list programs.
    - [str.lower] is the full Unicode lower-casing of the Python runtime; it
      is kept abstract (a section variable), so every result below holds for
      any lower-casing function.
    - The LLM provider behind [litellm.completion] is an oracle that answers
      the n-th request of a run either with a text or with a failure; the
      log keeps every request with its model, messages, temperature and
      token limit.
    - The file system is a finite map from resolved paths to regular files
      and directories; [pathlib] joins, the encoding of names, the limits on
      their length, POSIX path resolution, universal newlines and the steps
      of [write_text] are written out.
    - Handlers run in a state-and-exception monad over the request log and
      the file system; [print] calls have no model. *)

From Stdlib Require Import NArith Ascii String Lia.
From Equations Require Import Equations.
From stdpp Require Import gmap list strings pretty.

Set Default Proof Using "Type".

(** ** Python strings *)

Abbreviation str := (list N).

(** An ASCII literal of the source, as code points. *)
Definition py (s : string) : str := N_of_ascii <$> list_ascii_of_string s.
Arguments py s%_string.

Definition nl : N := 10.
Definition quote : N := 34.

(** [s.startswith(prefix)] *)
Fixpoint startswith (s prefix : str) {struct prefix} : bool :=
  match prefix, s with
  | [], _ => true
  | p :: prefix', c :: s' => N.eqb c p && startswith s' prefix'
  | _ :: _, [] => false
  end.

(** [needle in s] *)
Fixpoint contains (s needle : str) : bool :=
  startswith s needle ||
  match s with
  | [] => false
  | _ :: s' => contains s' needle
  end.

(** [s.endswith(suffix)]: compare the tail of [s] of the suffix's length. *)
Definition endswith (s suffix : str) : bool :=
  (length suffix <=? length s) &&
  bool_decide (drop (length s - length suffix) s = suffix).

(** The characters [str.strip()] removes: [Py_UNICODE_ISSPACE]. *)
Definition isspace (c : N) : bool :=
  (((9 <=? c) && (c <=? 13)) || ((28 <=? c) && (c <=? 32)) ||
   (c =? 133) || (c =? 160) || (c =? 5760) ||
   ((8192 <=? c) && (c <=? 8202)) ||
   (c =? 8232) || (c =? 8233) || (c =? 8239) || (c =? 8287) ||
   (c =? 12288))%N.

Fixpoint lstrip (s : str) : str :=
  match s with
  | c :: s' => if isspace c then lstrip s' else s
  | [] => []
  end.

Definition rstrip (s : str) : str := reverse (lstrip (reverse s)).

(** [s.strip()] *)
Definition strip (s : str) : str := rstrip (lstrip s).

(** An optional character at the head of the remaining input: the [c?] of a
    regular expression, which is greedy. *)
Definition skip_opt (c : N) (s : str) : str :=
  match s with
  | x :: r => if N.eqb x c then r else s
  | [] => []
  end.

(** [re.sub(lit + r'\n?', '', s)] for a literal [lit]: scan from the left;
    where the literal matches, drop it together with one following newline
    and resume after the match; elsewhere keep the character. With an empty
    literal the pattern is [\n?], which deletes every newline. *)
Equations? re_sub_opt_nl (lit s : str) : str by wf (length s) lt :=
  re_sub_opt_nl [] s := filter (fun c => c <> nl) s;
  re_sub_opt_nl (l :: lit) [] := [];
  re_sub_opt_nl (l :: lit) (c :: s) with startswith (c :: s) (l :: lit) := {
    | true => re_sub_opt_nl (l :: lit) (skip_opt nl (drop (length lit) s));
    | false => c :: re_sub_opt_nl (l :: lit) s }.
Proof.
  - assert (length (skip_opt nl (drop (length lit) s)) <= length s); [|simpl; lia].
    transitivity (length (drop (length lit) s)); [|rewrite length_drop; lia].
    destruct (drop (length lit) s) as [|x r]; simpl; [lia|].
    destruct (N.eqb x nl); simpl; lia.
  - simpl. lia.
Qed.

(** [s.replace(old, new)]: leftmost, non-overlapping occurrences. With an
    empty [old], Python inserts [new] before every character and at the
    end. *)
Equations? replace (old new s : str) : str by wf (length s) lt :=
  replace [] new s := new ++ flat_map (fun c => c :: new) s;
  replace (o :: old) new [] := [];
  replace (o :: old) new (c :: s) with startswith (c :: s) (o :: old) := {
    | true => new ++ replace (o :: old) new (drop (length old) s);
    | false => c :: replace (o :: old) new s }.
Proof.
  - rewrite length_drop. simpl. lia.
  - simpl. lia.
Qed.

(** ** Request and response models *)

Module GenerateSystemRequest.
Record t := Build { name : str; prompt : str }.
End GenerateSystemRequest.

Module EditSystemRequest.
Record t := Build { fileName : str; comment : str }.
End EditSystemRequest.

Module GenerateSystemResponse.
Record t := Build { success : bool; fileName : str; path : str; content : str }.
End GenerateSystemResponse.

Module EditSystemResponse.
Record t := Build { success : bool; fileName : str; content : str }.
End EditSystemResponse.

(** The dictionary [{"success": True, "fileName": file_name}] of the delete
    handler. *)
Module DeleteResponse.
Record t := Build { success : bool; fileName : str }.
End DeleteResponse.

(** ** Exceptions *)

(** [ProviderError] stands for whatever [litellm.completion] raises,
    [OSError] for the failures of the file operations, and [ValueError] for
    the errors of the codecs ([UnicodeEncodeError] is one); all carry their
    text. For an [OSError] the text is the error string alone: Python adds
    the error number and the file name, and no statement below depends on
    the wording. *)
Inductive exn :=
| HTTPException (status_code : nat) (detail : str)
| ProviderError (message : str)
| OSError (message : str)
| ValueError (message : str).

(** [str(e)]; Starlette prints an [HTTPException] as [status: detail]. *)
Definition exn_str (e : exn) : str :=
  match e with
  | HTTPException status_code detail => py (pretty status_code) ++ py ": " ++ detail
  | ProviderError message => message
  | OSError message => message
  | ValueError message => message
  end.

(** ** The file system

    The tree holds regular files, with their text, and directories, on a
    POSIX system whose file names and file contents are UTF-8. Symbolic
    links and special files (FIFOs, sockets, devices) have no model: a
    statement about a path speaks of a regular file, of a directory, or of a
    path at which nothing is. The process may search, read and write every
    directory and file, and the disk is never full: the operations fail for
    the reasons written out below and for no other. The calls of [pathlib]
    are those of CPython 3.12, the first version that reads the f-strings of
    the source; in particular [exists] and [is_dir] raise the errors of
    [stat] that do not mean that the path is missing. *)

Inductive node := File (body : str) | Dir.

(** A path is the list of its components below the root. *)
Abbreviation Path := (list str).

Definition slash : N := 47.

(** [s.split(sep)] for a one-character separator. *)
Fixpoint split_on (sep : N) (s : str) : list str :=
  match s with
  | [] => [[]]
  | c :: s' =>
      if N.eqb c sep then [] :: split_on sep s'
      else match split_on sep s' with
           | h :: t => (c :: h) :: t
           | [] => [[c]]
           end
  end.

(** The components [pathlib] keeps of a string: empty ones and ["."] are
    dropped, [".."] stays. *)
Definition parts (s : str) : list str :=
  filter (fun c => c <> [] /\ c <> py ".") (split_on slash s).

(** [p / s]: an absolute [s] replaces [p] (two leading slashes are read as
    one root). *)
Definition joinpath (p : Path) (s : str) : Path :=
  if startswith s [slash] then parts s else p ++ parts s.

(** [p.parent] *)
Definition parent (p : Path) : Path := removelast p.

Definition is_dir (t : gmap Path node) (p : Path) : bool :=
  match p with
  | [] => true
  | _ => match t !! p with Some Dir => true | _ => false end
  end.

(** *** Names as bytes *)

(** The surrogate code points, U+D800 to U+DFFF. *)
Definition surrogate (c : N) : bool := ((55296 <=? c) && (c <=? 57343))%N.

(** The surrogates U+DC80 to U+DCFF, which stand for one undecodable byte
    each in a file name (the error handler [surrogateescape]). *)
Definition escaped_byte (c : N) : bool := ((56448 <=? c) && (c <=? 56575))%N.

(** The texts [str.encode] accepts for UTF-8 with strict errors: those
    without a surrogate. *)
Definition encodable (s : str) : bool := forallb (fun c => negb (surrogate c)) s.

(** The names [os.fsencode] accepts and the system calls take: without a
    null character and without a surrogate other than an escaped byte. *)
Definition fs_encodable (s : str) : bool :=
  forallb (fun c => negb (c =? 0)%N && (negb (surrogate c) || escaped_byte c)) s.

(** The number of bytes of a character in a file name. *)
Definition utf8_length (c : N) : N :=
  (if c <? 128 then 1
   else if c <? 2048 then 2
   else if escaped_byte c then 1
   else if c <? 65536 then 3
   else 4)%N.

Definition fs_bytes (s : str) : N := foldr (fun c n => (utf8_length c + n)%N) 0%N s.

(** The length in bytes of [str(p)]: a slash before every component. *)
Definition path_bytes (p : Path) : N :=
  match p with
  | [] => 1%N
  | _ => foldr (fun c n => (1 + fs_bytes c + n)%N) 0%N p
  end.

(** The limits of Linux: a component has at most [NAME_MAX] bytes, a path
    with its final null byte at most [PATH_MAX]. *)
Definition NAME_MAX : N := 255.
Definition PATH_MAX : N := 4096.

(** *** Path resolution *)

(** What a system call finds for a path: the place the path leads to
    (whether or not something is there), or one of the errors: a component
    of the way is missing or no directory ([ENOENT], [ENOTDIR]); a name is
    too long ([ENAMETOOLONG]); the name cannot be passed to the system at
    all (a [ValueError] of Python, no call is made). *)
Inductive lookup := Found (q : Path) | NoEntry | NameTooLong | BadName.

(** Path resolution of the operating system: every component is looked up
    in a directory, [".."] goes up, and a directory refuses to look up a name
    of more than [NAME_MAX] bytes. *)
Fixpoint walk (t : gmap Path node) (cur : Path) (comps : list str) : lookup :=
  match comps with
  | [] => Found cur
  | c :: comps' =>
      if is_dir t cur then
        if bool_decide (c = py "..") then walk t (removelast cur) comps'
        else if (NAME_MAX <? fs_bytes c)%N then NameTooLong
        else walk t (cur ++ [c]) comps'
      else NoEntry
  end.

(** A system call on the path [p]: the name is encoded, the system checks
    its length, then resolves it. *)
Definition locate (t : gmap Path node) (p : Path) : lookup :=
  if negb (forallb fs_encodable p) then BadName
  else if (PATH_MAX <=? path_bytes p)%N then NameTooLong
  else walk t [] p.

(** The place a path leads to, when the system call gets there. *)
Definition resolve (t : gmap Path node) (p : Path) : option Path :=
  match locate t p with
  | Found q => Some q
  | _ => None
  end.

Inductive result (A : Type) := Ok (a : A) | Raise (e : exn).
Arguments Ok {A} a.
Arguments Raise {A} e.

(** The exception of a failed lookup. *)
Definition lookup_error (l : lookup) : exn :=
  match l with
  | NameTooLong => OSError (py "File name too long")
  | BadName => ValueError (py "embedded null character or surrogate in path")
  | _ => OSError (py "No such file or directory")
  end.

(** *** The calls of [pathlib] *)

(** Whether something is at [p]. This is the answer of [p.exists()] when it
    gives one: [exists] answers [False] when [stat] fails with [ENOENT] or
    [ENOTDIR] and when the name cannot be encoded. *)
Definition fs_exists (t : gmap Path node) (p : Path) : bool :=
  match resolve t p with
  | Some q => is_dir t q || bool_decide (is_Some (t !! q))
  | None => false
  end.

(** The paths for which [stat] fails with [ENAMETOOLONG]. [p.exists()] and
    [p.is_dir()] give no answer for them: they raise the error again. *)
Definition fs_refused (t : gmap Path node) (p : Path) : bool :=
  match locate t p with
  | NameTooLong => true
  | _ => false
  end.

Definition cr : N := 13.

(** Universal newlines, the default of a text file opened for reading:
    [\r\n] and a lone [\r] are read as [\n]. *)
Fixpoint universal_newlines (s : str) : str :=
  match s with
  | [] => []
  | c :: s' =>
      if N.eqb c cr then
        nl :: match s' with
              | c' :: s'' =>
                  if N.eqb c' nl then universal_newlines s''
                  else universal_newlines s'
              | [] => []
              end
      else c :: universal_newlines s'
  end.

(** [p.read_text()]: the text of the file, with universal newlines. *)
Definition fs_read_text (t : gmap Path node) (p : Path) : result str :=
  match locate t p with
  | Found q =>
      if is_dir t q then Raise (OSError (py "Is a directory"))
      else match t !! q with
           | Some (File body) => Ok (universal_newlines body)
           | _ => Raise (OSError (py "No such file or directory"))
           end
  | l => Raise (lookup_error l)
  end.

(** [p.open('w')]: create the file or truncate it; its directory must
    exist. The result is the place of the file and the tree with the empty
    file. *)
Definition fs_open_w (t : gmap Path node) (p : Path)
  : result (Path * gmap Path node) :=
  match locate t p with
  | Found q =>
      if is_dir t q then Raise (OSError (py "Is a directory"))
      else if is_dir t (removelast q) then Ok (q, <[q := File []]> t)
      else Raise (OSError (py "No such file or directory"))
  | l => Raise (lookup_error l)
  end.

(** [p.write_text(body)], which is [with p.open('w') as f: f.write(body)]:
    the file is opened, and so emptied, before the text is encoded; a text
    that cannot be encoded leaves the empty file behind. The result and the
    tree afterwards. *)
Definition fs_write (t : gmap Path node) (p : Path) (body : str)
  : result unit * gmap Path node :=
  match fs_open_w t p with
  | Ok (q, t1) =>
      if encodable body then (Ok tt, <[q := File body]> t1)
      else (Raise (ValueError (py "surrogates not allowed")), t1)
  | Raise e => (Raise e, t)
  end.

(** The tree after a [p.write_text(body)] that succeeds. *)
Definition fs_write_text (t : gmap Path node) (p : Path) (body : str)
  : result (gmap Path node) :=
  match fs_write t p body with
  | (Ok _, t') => Ok t'
  | (Raise e, _) => Raise e
  end.

(** [p.unlink()] *)
Definition fs_unlink (t : gmap Path node) (p : Path) : result (gmap Path node) :=
  match locate t p with
  | Found q =>
      if is_dir t q then Raise (OSError (py "Is a directory"))
      else match t !! q with
           | Some (File _) => Ok (delete q t)
           | _ => Raise (OSError (py "No such file or directory"))
           end
  | l => Raise (lookup_error l)
  end.

(** ** The handler monad: state and exceptions *)

(** One request to the provider: its [messages], as (role, content) pairs. *)
Abbreviation messages := (list (str * str)).

Inductive completion := Completion (content : str) | Failure (message : str).

(** The arguments of one call of [litellm.completion]. *)
Module CompletionRequest.
Record t := Build {
  model : str;
  messages : list (str * str);
  temperature : str;
  max_tokens : N
}.
End CompletionRequest.

(** The world a handler runs in: the files, and the requests sent to the
    provider so far. *)
Record world := World {
  fs : gmap Path node;
  requests : list CompletionRequest.t
}.

(** The messages of the requests sent so far. *)
Definition calls (w : world) : list messages :=
  CompletionRequest.messages <$> requests w.

Definition M (A : Type) : Type := world -> result A * world.

Definition ret {A} (a : A) : M A := fun w => (Ok a, w).

Definition raise {A} (e : exn) : M A := fun w => (Raise e, w).

Definition bind {A B} (c : M A) (k : A -> M B) : M B := fun w =>
  match c w with
  | (Ok a, w') => k a w'
  | (Raise e, w') => (Raise e, w')
  end.

(** [try: body / except ...: handler] *)
Definition try_except {A} (body : M A) (handler : exn -> M A) : M A := fun w =>
  match body w with
  | (Ok a, w') => (Ok a, w')
  | (Raise e, w') => handler e w'
  end.

Notation "x <- c ;; k" := (bind c (fun x => k))
  (at level 100, c at next level, right associativity).
Notation "c ;;; k" := (bind c (fun _ => k))
  (at level 100, right associativity).

Definition lift_fs {A} (f : gmap Path node -> result A) : M A := fun w =>
  (f (fs w), w).

(** [p.exists()] *)
Definition path_exists (p : Path) : M bool :=
  lift_fs (fun t =>
    if fs_refused t p then Raise (lookup_error NameTooLong)
    else Ok (fs_exists t p)).

Definition read_text (p : Path) : M str := lift_fs (fun t => fs_read_text t p).

Definition write_text (p : Path) (body : str) : M unit := fun w =>
  let (r, t') := fs_write (fs w) p body in
  (r, World t' (requests w)).

Definition unlink (p : Path) : M unit := fun w =>
  match fs_unlink (fs w) p with
  | Ok t' => (Ok tt, World t' (requests w))
  | Raise e => (Raise e, w)
  end.

Definition inspect {A} (a : A) : {b : A | a = b} := exist _ a eq_refl.

(** Lines of a multi-line literal, joined by newlines. *)
Definition unlines (ls : list str) : str :=
  match ls with
  | [] => []
  | l :: ls' => l ++ flat_map (fun x => nl :: x) ls'
  end.

(** ** Helpers of [server.py] *)

Definition fence : str := py "```".
Definition fence_html : str := py "```html".

(** [clean_html], identical in [server.py] and [showcase/server.py]. *)
Definition clean_html (content : str) : str :=
  let cleaned :=
    if contains content fence_html then
      let cleaned := re_sub_opt_nl fence_html content in
      re_sub_opt_nl fence cleaned
    else if contains content fence then
      re_sub_opt_nl fence content
    else content in
  strip cleaned.

(** [html[-chars:]]: a slice from [len - chars], the whole string when
    [chars] is 0 or exceeds the length. *)
Definition last_chars (chars : nat) (html : str) : str :=
  match chars with
  | 0 => html
  | _ => drop (length html - chars) html
  end.

Definition get_continuation_context (html : str) (chars : nat) : str :=
  if chars <? length html then last_chars chars html else html.

(** The call [litellm.completion(model=..., messages=messages,
    temperature=0.7, max_tokens=max_tokens)] of [server.py]. *)
Definition completion_request (messages : messages) (max_tokens : N)
  : CompletionRequest.t :=
  {| CompletionRequest.model := py "anthropic/claude-sonnet-4-5-20250929";
     CompletionRequest.messages := messages;
     CompletionRequest.temperature := py "0.7";
     CompletionRequest.max_tokens := max_tokens |}.

Section Server.

(** [str.lower] of the Python runtime. *)
Variable lower : str -> str.

(** The provider behind [litellm.completion], with the model, the
    temperature and the token limit of this server: the answer to the [n]-th
    request made since the start of the log. *)
Variable llm : nat -> messages -> completion.

(** [Path(__file__).parent], the directory of [server.py]. *)
Variable app_dir : Path.

Definition closing_html : str := py "</html>".
Definition closing_body : str := py "</body>".

Definition is_html_complete (html : str) : bool :=
  let html_lower := strip (lower html) in
  let has_closing_html := contains html_lower closing_html in
  let has_closing_body := contains html_lower closing_body in
  let ends_properly :=
    endswith html_lower closing_html ||
    endswith html_lower (closing_html ++ [nl]) in
  has_closing_html && has_closing_body && ends_properly.

Definition build_messages (user_prompt system_prompt : str) : messages :=
  (match system_prompt with
   | [] => []
   | _ => [(py "system", system_prompt)]
   end) ++ [(py "user", user_prompt)].

(** [call_llm]; every caller leaves [max_tokens] at its default, 64000. *)
Definition call_llm (user_prompt system_prompt : str) : M str := fun w =>
  let messages := build_messages user_prompt system_prompt in
  let max_tokens := 64000%N in
  let request := completion_request messages max_tokens in
  let w' := World (fs w) (requests w ++ [request]) in
  match llm (length (calls w)) messages with
  | Completion content => (Ok content, w')
  | Failure message => (Raise (ProviderError message), w')
  end.

(** *** The continuation loop

    The loop is written twice in the source, in [generate_design_system] and
    in [edit_design_system], with the same text; [continuation_engine] is
    that text: the first call, its clean-up, and the [while] loop. *)

Definition max_continuations : nat := 5.

Record ContinuationState := {
  cleaned_html : str;
  continuation_attempts : nat
}.

Definition continuation_prompt (context : str) : str :=
  unlines [
    py "The previous response was cut off. Here is where it ended:";
    [];
    py "..." ++ context;
    [];
    py "Please continue from EXACTLY where this left off and complete the rest of the HTML document. Do NOT repeat any of the content shown above. Start immediately from where it was cut off and continue until the document is complete with proper closing tags (</body> and </html>).";
    [];
    py "Output ONLY the continuation HTML code, no explanations or markdown code blocks." ].

(** The test of the [while] statement. *)
Definition loop_test (st : ContinuationState) : bool :=
  negb (is_html_complete (cleaned_html st)) &&
  (continuation_attempts st <? max_continuations).

(** The body of the [while] statement, up to the provider's answer. *)
Definition loop_request (st : ContinuationState) : M str :=
  let context := get_continuation_context (cleaned_html st) 2000 in
  call_llm (continuation_prompt context) [].

(** The rest of the body: clean the answer and append it. *)
Definition loop_append (st : ContinuationState) (continuation : str)
  : ContinuationState :=
  let cleaned_continuation := clean_html continuation in
  {| cleaned_html := cleaned_html st ++ [nl] ++ cleaned_continuation;
     continuation_attempts := continuation_attempts st + 1 |}.

Equations? while_loop (st : ContinuationState) : M ContinuationState
  by wf (max_continuations - continuation_attempts st) lt :=
  while_loop st with inspect (loop_test st) := {
    | exist _ true _ =>
        continuation <- loop_request st ;;
        while_loop (loop_append st continuation);
    | exist _ false _ => ret st }.
Proof.
  unfold loop_test in *. simpl.
  apply andb_true_iff in e as [_ H%Nat.ltb_lt]. lia.
Qed.

Definition continuation_engine (user_prompt system_prompt : str) : M str :=
  html_content <- call_llm user_prompt system_prompt ;;
  let cleaned := clean_html html_content in
  st <- while_loop {| cleaned_html := cleaned; continuation_attempts := 0 |} ;;
  ret (cleaned_html st).

(** *** POST /api/generate-design-system *)

Definition systems_dir : Path :=
  joinpath (joinpath app_dir (py "public")) (py "systems").

Definition generate_system_prompt (requirements : str) : str :=
  unlines [
    py "You are an expert web designer and developer. Create a complete, self-contained HTML design system file.";
    [];
    match requirements with
    | [] => []
    | _ => py "Follow these requirements:" ++ [nl] ++ requirements ++ [nl]
    end;
    [];
    py "IMPORTANT INSTRUCTIONS:";
    py "- Create a COMPLETE single-file HTML document with embedded CSS and JavaScript";
    py "- Include comprehensive design tokens using CSS custom properties";
    py "- Include a full component library (buttons, inputs, cards, alerts, badges, tables, forms, etc.)";
    py "- Make it fully accessible (WCAG 2.2 AA compliant)";
    py "- Include interactive examples and documentation";
    py "- The design should be unique, creative, and follow the user's aesthetic requirements";
    py "- Include light/dark theme support";
    py "- Output ONLY the HTML code, no explanations or markdown code blocks" ].

Definition generate_user_prompt (request : GenerateSystemRequest.t) : str :=
  unlines [
    py "Create a design system with the following characteristics: "
      ++ GenerateSystemRequest.prompt request;
    [];
    py "The design system should be named " ++ [quote]
      ++ GenerateSystemRequest.name request ++ [quote]
      ++ py " and should include all standard components while following the aesthetic described above." ].

(** [f"{request.name.lower().replace(' ', '-')}.html"] *)
Definition derive_file_name (name : str) : str :=
  replace (py " ") (py "-") (lower name) ++ py ".html".

(** The requirements file next to the application directory, the empty
    string when there is none. *)
Definition read_requirements : M str :=
  let requirements_path := joinpath (parent app_dir) (py "REQUIREMENTS.MD") in
  present <- path_exists requirements_path ;;
  if present : bool then read_text requirements_path else ret [].

Definition generate_design_system (request : GenerateSystemRequest.t)
  : M GenerateSystemResponse.t :=
  try_except
    (requirements <- read_requirements ;;
     let system_prompt := generate_system_prompt requirements in
     let user_prompt := generate_user_prompt request in
     cleaned <- continuation_engine user_prompt system_prompt ;;
     let file_name := derive_file_name (GenerateSystemRequest.name request) in
     let file_path := joinpath systems_dir file_name in
     write_text file_path cleaned ;;;
     ret {| GenerateSystemResponse.success := true;
            GenerateSystemResponse.fileName := file_name;
            GenerateSystemResponse.path := py "/systems/" ++ file_name;
            GenerateSystemResponse.content := cleaned |})
    (fun e =>
       raise (HTTPException 500
                (py "Failed to generate design system: " ++ exn_str e))).

(** *** POST /api/edit-design-system *)

Definition edit_system_prompt : str :=
  unlines [
    py "You are an expert web designer and developer. You are editing an existing HTML design system file based on user feedback.";
    [];
    py "IMPORTANT INSTRUCTIONS:";
    py "- Modify the existing HTML design system according to the user's comment";
    py "- Maintain the overall structure and existing components unless specifically asked to change them";
    py "- Keep all CSS custom properties and design tokens consistent";
    py "- Ensure accessibility is maintained (WCAG 2.2 AA compliant)";
    py "- Output ONLY the complete modified HTML code, no explanations or markdown code blocks";
    py "- Make surgical, precise changes based on the feedback" ].

Definition edit_user_prompt (existing_content comment : str) : str :=
  unlines [
    py "Here is the existing design system HTML:";
    [];
    existing_content;
    [];
    py "User feedback/change request: " ++ comment;
    [];
    py "Please modify the design system according to this feedback and return the complete updated HTML." ].

Definition not_found : exn :=
  HTTPException 404 (py "Design system file not found").

Definition edit_design_system (request : EditSystemRequest.t)
  : M EditSystemResponse.t :=
  try_except
    (let file_path := joinpath systems_dir (EditSystemRequest.fileName request) in
     present <- path_exists file_path ;;
     if negb present then raise not_found else
     existing_content <- read_text file_path ;;
     let system_prompt := edit_system_prompt in
     let user_prompt :=
       edit_user_prompt existing_content (EditSystemRequest.comment request) in
     cleaned <- continuation_engine user_prompt system_prompt ;;
     write_text file_path cleaned ;;;
     ret {| EditSystemResponse.success := true;
            EditSystemResponse.fileName := EditSystemRequest.fileName request;
            EditSystemResponse.content := cleaned |})
    (fun e =>
       match e with
       | HTTPException _ _ => raise e
       | _ => raise (HTTPException 500
                       (py "Failed to edit design system: " ++ exn_str e))
       end).

(** *** DELETE /api/design-system/{file_name} *)

Definition invalid_name : exn := HTTPException 400 (py "Invalid file name").

Definition delete_design_system (file_name : str) : M DeleteResponse.t :=
  try_except
    (if contains file_name (py "/") || contains file_name (py "\")
        || contains file_name (py "..")
     then raise invalid_name else
     let file_path := joinpath systems_dir file_name in
     present <- path_exists file_path ;;
     if negb present then raise not_found else
     unlink file_path ;;;
     ret {| DeleteResponse.success := true;
            DeleteResponse.fileName := file_name |})
    (fun e =>
       match e with
       | HTTPException _ _ => raise e
       | _ => raise (HTTPException 500
                       (py "Failed to delete design system: " ++ exn_str e))
       end).

End Server.

(** ** Listing the storage directory *)

Module DesignSystemInfo.
Record t := Build { fileName : str; path : str; name : str }.
End DesignSystemInfo.

Module DesignSystemsListResponse.
Record t := Build { systems : list DesignSystemInfo.t }.
End DesignSystemsListResponse.

Definition dot : N := 46.

(** [s.rfind(c)], [None] for -1. *)
Fixpoint rfind (c : N) (s : str) : option nat :=
  match s with
  | [] => None
  | x :: s' =>
      match rfind c s' with
      | Some i => Some (S i)
      | None => if N.eqb x c then Some 0 else None
      end
  end.

(** [f.stem]: the name up to its last dot; a dot at the start or at the end
    of the name starts no suffix. *)
Definition stem (name : str) : str :=
  match rfind dot name with
  | Some i => if (0 <? i) && (i <? length name - 1) then take i name else name
  | None => name
  end.

(** The name under which the key [k] is an entry of the directory [q]. *)
Definition child_name (q k : Path) : option str :=
  match drop (length q) k with
  | [name] => if bool_decide (take (length q) k = q) then Some name else None
  | _ => None
  end.

(** [p.glob("*.html")]: the entries of the directory [p], files and folders,
    hidden or not, whose name ends in [.html]; nothing when [p] is no
    directory. The operating system fixes no order of the entries; the model
    lists them in the order of the map, and no statement depends on it. *)
Definition fs_glob_html (t : gmap Path node) (p : Path) : list str :=
  match resolve t p with
  | Some q =>
      if is_dir t q then
        filter (fun name => Is_true (endswith name (py ".html")))
               (omap (fun kv => child_name q kv.1) (map_to_list t))
      else []
  | None => []
  end.

(** The call in the monad: [glob] starts with [p.is_dir()], which raises
    for a path the system refuses (later versions of CPython list nothing
    for such a path; the statements on the listing leave the case out). *)
Definition glob_html (p : Path) : M (list str) :=
  lift_fs (fun t =>
    if fs_refused t p then Raise (lookup_error NameTooLong)
    else Ok (fs_glob_html t p)).

Section Listing.

Variable app_dir : Path.

(** GET /api/design-systems, the same text in both source files. *)
Definition list_design_systems : M DesignSystemsListResponse.t :=
  try_except
    (let systems_dir := systems_dir app_dir in
     entries <- glob_html systems_dir ;;
     let files :=
       (fun f_name =>
          {| DesignSystemInfo.fileName := f_name;
             DesignSystemInfo.path := py "/systems/" ++ f_name;
             DesignSystemInfo.name := replace (py "-") (py " ") (stem f_name) |})
         <$> entries in
     ret {| DesignSystemsListResponse.systems := files |})
    (fun e =>
       raise (HTTPException 500
                (py "Failed to list design systems: " ++ exn_str e))).

End Listing.

(** ** The handlers of [showcase/server.py]

    The showcase server has the same [clean_html], prompts and listing. Its
    [call_llm] asks another model for fewer tokens; its generate and edit
    handlers clean the first answer and store it, without the continuation
    loop; and it has no delete handler. *)

Module Showcase.

(** The call [litellm.completion(model="gpt-4o-mini", messages=messages,
    temperature=0.7, max_tokens=16000)]. *)
Definition completion_request (messages : messages) : CompletionRequest.t :=
  {| CompletionRequest.model := py "gpt-4o-mini";
     CompletionRequest.messages := messages;
     CompletionRequest.temperature := py "0.7";
     CompletionRequest.max_tokens := 16000 |}.

Section Server.

Variable lower : str -> str.

(** The provider of the showcase server. *)
Variable llm : nat -> messages -> completion.

Variable app_dir : Path.

Definition call_llm (user_prompt system_prompt : str) : M str := fun w =>
  let messages := build_messages user_prompt system_prompt in
  let request := completion_request messages in
  let w' := World (fs w) (requests w ++ [request]) in
  match llm (length (calls w)) messages with
  | Completion content => (Ok content, w')
  | Failure message => (Raise (ProviderError message), w')
  end.

Definition generate_design_system (request : GenerateSystemRequest.t)
  : M GenerateSystemResponse.t :=
  try_except
    (requirements <- read_requirements app_dir ;;
     let system_prompt := generate_system_prompt requirements in
     let user_prompt := generate_user_prompt request in
     html_content <- call_llm user_prompt system_prompt ;;
     let cleaned_html := clean_html html_content in
     let file_name := derive_file_name lower (GenerateSystemRequest.name request) in
     let file_path := joinpath (systems_dir app_dir) file_name in
     write_text file_path cleaned_html ;;;
     ret {| GenerateSystemResponse.success := true;
            GenerateSystemResponse.fileName := file_name;
            GenerateSystemResponse.path := py "/systems/" ++ file_name;
            GenerateSystemResponse.content := cleaned_html |})
    (fun e =>
       raise (HTTPException 500
                (py "Failed to generate design system: " ++ exn_str e))).

Definition edit_design_system (request : EditSystemRequest.t)
  : M EditSystemResponse.t :=
  try_except
    (let file_path :=
       joinpath (systems_dir app_dir) (EditSystemRequest.fileName request) in
     present <- path_exists file_path ;;
     if negb present then raise not_found else
     existing_content <- read_text file_path ;;
     let system_prompt := edit_system_prompt in
     let user_prompt :=
       edit_user_prompt existing_content (EditSystemRequest.comment request) in
     updated_html <- call_llm user_prompt system_prompt ;;
     let cleaned_html := clean_html updated_html in
     write_text file_path cleaned_html ;;;
     ret {| EditSystemResponse.success := true;
            EditSystemResponse.fileName := EditSystemRequest.fileName request;
            EditSystemResponse.content := cleaned_html |})
    (fun e =>
       match e with
       | HTTPException _ _ => raise e
       | _ => raise (HTTPException 500
                       (py "Failed to edit design system: " ++ exn_str e))
       end).

End Server.

End Showcase.

(** ** Vocabulary of the statements *)

(** Lower-casing of ASCII letters; [str.lower] on ASCII text. Used for the
    concrete runs. *)
Definition ascii_lower (s : str) : str :=
  (fun c => if ((65 <=? c) && (c <=? 90))%N then (c + 32)%N else c) <$> s.

(** [needle] occurs in [s]. *)
Definition infix (needle s : str) : Prop := exists a b, s = a ++ needle ++ b.

Definition backtick : N := 96.
Definition space : N := 32.
Definition hyphen : N := 45.

(** [removes lit s out]: [out] is [s] with some occurrences of [lit], each
    with or without one newline after it, deleted and nothing else changed. *)
Inductive removes (lit : str) : str -> str -> Prop :=
| removes_nil : removes lit [] []
| removes_keep c s out : removes lit s out -> removes lit (c :: s) (c :: out)
| removes_lit s out : removes lit s out -> removes lit (lit ++ s) out
| removes_lit_nl s out : removes lit s out -> removes lit (lit ++ nl :: s) out.

(** [removes_all lit s out]: [out] is [s] after the substitution that deletes
    [lit], read from the left: wherever [lit] starts it is deleted, together
    with the newline after it if there is one, and the reading resumes
    behind the deletion; a character is kept only where [lit] does not
    start. *)
Inductive removes_all (lit : str) : str -> str -> Prop :=
| removes_all_nil : removes_all lit [] []
| removes_all_keep c s out :
    ~ lit `prefix_of` c :: s ->
    removes_all lit s out -> removes_all lit (c :: s) (c :: out)
| removes_all_lit s out :
    ~ [nl] `prefix_of` s ->
    removes_all lit s out -> removes_all lit (lit ++ s) out
| removes_all_lit_nl s out :
    removes_all lit s out -> removes_all lit (lit ++ nl :: s) out.

(** The world after the requests of [server.py] with the messages [ms]. *)
Definition logged_all (w : world) (ms : list messages) : world :=
  World (fs w)
    (requests w ++ ((fun m => completion_request m 64000) <$> ms)).

(** The world after one more request to the provider. *)
Definition logged (w : world) (m : messages) : world := logged_all w [m].

(** The world after one more request of the showcase server. *)
Definition showcase_logged (w : world) (m : messages) : world :=
  World (fs w) (requests w ++ [Showcase.completion_request m]).

(** Two runs from the world [w], [run] of [server.py] and [run'] of the
    showcase server, end alike: with the same result and the same files,
    after requests with the same messages, each server's with its own model
    and token limit. *)
Definition alike {A} (w : world) (run run' : result A * world) : Prop :=
  fst run' = fst run /\ fs (snd run') = fs (snd run) /\
  exists ms,
    requests (snd run)
    = requests w ++ ((fun m => completion_request m 64000) <$> ms) /\
    requests (snd run')
    = requests w ++ (Showcase.completion_request <$> ms).

(** The path [p] leads to a regular file that holds the text [body]. *)
Definition file_at (t : gmap Path node) (p : Path) (body : str) : Prop :=
  exists q, resolve t p = Some q /\ is_dir t q = false /\
    t !! q = Some (File body).

(** The path [p] leads to a directory. *)
Definition dir_at (t : gmap Path node) (p : Path) : Prop :=
  exists q, resolve t p = Some q /\ is_dir t q = true.

(** The errors of the file operations: none is an [HTTPException]. *)
Definition os_error (e : exn) : Prop :=
  match e with
  | OSError _ | ValueError _ => True
  | _ => False
  end.

(** The request of a continuation, for the text accumulated so far. *)
Definition continuation_messages (text : str) : messages :=
  build_messages (continuation_prompt (get_continuation_context text 2000)) [].

(** The cleaned first output [o 0] followed by the cleaned continuations
    [o 1] .. [o k], each after one newline. *)
Definition accumulated (o : nat -> str) (k : nat) : str :=
  clean_html (o 0) ++ flat_map (fun j => nl :: clean_html (o j)) (seq 1 k).

Definition engine_state (o : nat -> str) (k : nat) : ContinuationState :=
  {| cleaned_html := accumulated o k; continuation_attempts := k |}.

Section Runs.

Variable lower : str -> str.
Variable llm : nat -> messages -> completion.

(** The provider answers the first request of a run with [o 0] and the
    [k]-th continuation request, [k <= N], with [o k]. *)
Definition answers (base : nat) (user_prompt system_prompt : str)
    (o : nat -> str) (N : nat) : Prop :=
  llm base (build_messages user_prompt system_prompt) = Completion (o 0) /\
  forall k, k < N ->
    llm (base + S k) (continuation_messages (accumulated o k))
    = Completion (o (S k)).

(** The loop states a run of the [while] statement goes through. *)
Inductive loop_reach (st0 : ContinuationState) (w0 : world)
  : ContinuationState -> world -> Prop :=
| reach_start : loop_reach st0 w0 st0 w0
| reach_iter st w continuation w' :
    loop_reach st0 w0 st w ->
    loop_test lower st = true ->
    loop_request llm st w = (Ok continuation, w') ->
    loop_reach st0 w0 (loop_append st continuation) w'.

(** What a run from [w] to [w'] with result [r] did to the world: the files
    are untouched, requests were only added, and every added request was
    answered, except that the last one may have failed, which is then the
    result. *)
Definition provider_run {A} (w w' : world) (r : result A) : Prop :=
  fs w' = fs w /\ calls w `prefix_of` calls w' /\
  forall i m, calls w' !! i = Some m -> length (calls w) <= i ->
    match llm i m with
    | Completion _ => True
    | Failure message =>
        S i = length (calls w') /\ r = Raise (ProviderError message)
    end.

End Runs.

(** The 500 answer of the generate handler. *)
Definition generate_failed (e : exn) : exn :=
  HTTPException 500 (py "Failed to generate design system: " ++ exn_str e).

Definition generate_response (file_name cleaned : str) : GenerateSystemResponse.t :=
  {| GenerateSystemResponse.success := true;
     GenerateSystemResponse.fileName := file_name;
     GenerateSystemResponse.path := py "/systems/" ++ file_name;
     GenerateSystemResponse.content := cleaned |}.

(** The 500 answers of the edit and delete handlers. *)
Definition edit_failed (e : exn) : exn :=
  HTTPException 500 (py "Failed to edit design system: " ++ exn_str e).

Definition delete_failed (e : exn) : exn :=
  HTTPException 500 (py "Failed to delete design system: " ++ exn_str e).

(** The test of the delete handler on its file name. *)
Definition rejected_name (file_name : str) : bool :=
  contains file_name (py "/") || contains file_name (py "\")
  || contains file_name (py "..").

(** The entry of the listing for a file name. *)
Definition listed_info (f_name : str) : DesignSystemInfo.t :=
  {| DesignSystemInfo.fileName := f_name;
     DesignSystemInfo.path := py "/systems/" ++ f_name;
     DesignSystemInfo.name := replace (py "-") (py " ") (stem f_name) |}.

(** *** Sample worlds and providers for the concrete runs *)

Definition sample_dir : Path := [py "srv"; py "app"].

Definition sample_systems : Path := sample_dir ++ [py "public"; py "systems"].

(** The application directory with its [public/systems] folder and one
    stored document. *)
Definition sample_fs : gmap Path node :=
  list_to_map [
    ([py "srv"], Dir);
    (sample_dir, Dir);
    (sample_dir ++ [py "public"], Dir);
    (sample_systems, Dir);
    (sample_systems ++ [py "ocean.html"], File (py "<html><body></body></html>")) ].

Definition sample_world : world := World sample_fs [].

(** A file name of 300 letters. *)
Definition long_name : str := replicate 300 97%N.

(** A first answer cut off in the middle of a tag, completed by the second. *)
Definition two_part (k : nat) : str :=
  match k with
  | 0 => py "<html><body><p>Ocean</"
  | _ => py "p></body></html>"
  end.

Definition two_part_llm (n : nat) (_ : messages) : completion :=
  Completion (two_part n).

(** A provider that never closes the document. *)
Definition endless_llm (_ : nat) (_ : messages) : completion :=
  Completion (py "<p>more</p>").

(** A provider that answers once and then fails. *)
Definition failing_llm (n : nat) (_ : messages) : completion :=
  match n with
  | 0 => Completion (py "<html><body>")
  | _ => Failure (py "rate limit exceeded")
  end.

(** A provider that answers with a whole document. *)
Definition whole_llm (_ : nat) (_ : messages) : completion :=
  Completion (py "<html><body></body></html>").

(** A provider whose answer holds a lone surrogate, U+D83D, as the JSON
    escape of half an emoji gives it. *)
Definition surrogate_llm (_ : nat) (_ : messages) : completion :=
  Completion (py "<html><body>" ++ 55357%N :: py "</body></html>").

(** * Properties *)

(** ** Strings *)

Lemma startswith_prefix s p : startswith s p = true <-> p `prefix_of` s.
Proof.
  revert s. induction p as [|x p IH]; intros s; simpl.
  - split; [intros _; apply prefix_nil | done].
  - destruct s as [|c s].
    + split; [done | intros [k Hk]; discriminate].
    + rewrite andb_true_iff, N.eqb_eq, IH. split.
      * intros [-> H]. by apply prefix_cons.
      * intros [k Hk]. simplify_eq/=. split; [done | by exists k].
Qed.

Lemma contains_infix s n : contains s n = true <-> infix n s.
Proof.
  induction s as [|c s IH]; simpl; rewrite orb_true_iff, startswith_prefix.
  - split.
    + intros [[k Hk] | ?]; [|done]. exists [], k. done.
    + intros (a & b & H). left. destruct a; [|discriminate]. by exists b.
  - rewrite IH. split.
    + intros [[k Hk] | (a & b & H)].
      * exists [], k. done.
      * exists (c :: a), b. by rewrite H.
    + intros (a & b & H). destruct a as [|x a].
      * left. by exists b.
      * right. simplify_eq/=. by exists a, b.
Qed.

Lemma endswith_suffix s x : endswith s x = true <-> x `suffix_of` s.
Proof.
  unfold endswith. rewrite andb_true_iff, Nat.leb_le, bool_decide_eq_true. split.
  - intros [_ H]. exists (take (length s - length x) s).
    pose proof (take_drop (length s - length x) s) as E. by rewrite H in E.
  - intros [k ->]. rewrite length_app. split; [lia|].
    replace (length k + length x - length x) with (length k) by lia.
    by rewrite drop_app_length.
Qed.

Lemma infix_prefix_needle n m s : infix (n ++ m) s -> infix n s.
Proof. intros (a & b & ->). exists a, (m ++ b). by rewrite <- (assoc_L (++)). Qed.

Lemma lstrip_suffix s : lstrip s `suffix_of` s.
Proof.
  induction s as [|c s IH]; simpl; [done|].
  destruct (isspace c); [by apply suffix_cons_r | done].
Qed.

Lemma lstrip_head s c r : lstrip s = c :: r -> isspace c = false.
Proof.
  induction s as [|x s IH]; simpl; [done|].
  destruct (isspace x) eqn:E; [done | congruence].
Qed.

Lemma lstrip_fixed c r : isspace c = false -> lstrip (c :: r) = c :: r.
Proof. intros H. simpl. by rewrite H. Qed.

Lemma lstrip_idemp s : lstrip (lstrip s) = lstrip s.
Proof.
  destruct (lstrip s) as [|c r] eqn:E; [done|].
  apply lstrip_fixed. by eapply lstrip_head.
Qed.

Lemma lstrip_app s u :
  lstrip (s ++ u) = match lstrip s with [] => lstrip u | _ => lstrip s ++ u end.
Proof.
  induction s as [|c s IH]; simpl.
  - by destruct (lstrip u).
  - by destruct (isspace c).
Qed.

Lemma rstrip_prefix s : rstrip s `prefix_of` s.
Proof.
  destruct (lstrip_suffix (reverse s)) as [k Hk]. exists (reverse k).
  apply (f_equal reverse) in Hk. by rewrite reverse_involutive, reverse_app in Hk.
Qed.

Lemma rstrip_idemp s : rstrip (rstrip s) = rstrip s.
Proof. unfold rstrip. by rewrite reverse_involutive, lstrip_idemp. Qed.

Lemma rstrip_snoc_space s c : isspace c = true -> rstrip (s ++ [c]) = rstrip s.
Proof. intros H. unfold rstrip. rewrite reverse_app. simpl. by rewrite H. Qed.

Lemma rstrip_cons_keep c r : isspace c = false -> rstrip (c :: r) = c :: rstrip r.
Proof.
  intros H. unfold rstrip. rewrite reverse_cons, lstrip_app.
  destruct (lstrip (reverse r)) as [|x u] eqn:E.
  - simpl. by rewrite H.
  - by rewrite reverse_app.
Qed.

Lemma strip_infix n s : infix n (strip s) -> infix n s.
Proof.
  intros (a & b & H). unfold strip in H.
  destruct (rstrip_prefix (lstrip s)) as [k Hk].
  destruct (lstrip_suffix s) as [j Hj].
  exists (j ++ a), (b ++ k). rewrite Hj, Hk, H. by rewrite <- !(assoc_L (++)).
Qed.

Lemma strip_idemp s : strip (strip s) = strip s.
Proof.
  unfold strip. destruct (lstrip s) as [|c r] eqn:E; [done|].
  assert (isspace c = false) as Hc by (by eapply lstrip_head).
  rewrite rstrip_cons_keep by done.
  by rewrite lstrip_fixed, <- rstrip_cons_keep, rstrip_idemp by done.
Qed.

Lemma strip_ends_unspaced s x c :
  isspace c = true -> ~ (x ++ [c]) `suffix_of` strip s.
Proof.
  intros Hc [k Hk]. unfold strip, rstrip in Hk.
  apply (f_equal reverse) in Hk.
  rewrite reverse_involutive, !reverse_app in Hk. simpl in Hk.
  apply lstrip_head in Hk. congruence.
Qed.

Lemma strip_snoc_space s c : isspace c = true -> strip (s ++ [c]) = strip s.
Proof.
  intros H. unfold strip. rewrite lstrip_app.
  destruct (lstrip s) as [|x u] eqn:E.
  - simpl. by rewrite H.
  - by apply rstrip_snoc_space.
Qed.

(** ** The completeness checker *)

(** C4. [is_html_complete s] is true exactly when the lower-cased, trimmed
    text contains the closing root tag, contains the closing body tag, and
    ends with the closing root tag. So a text without both tags is
    incomplete; a text that ends with the root tag and has the body tag
    before it is complete; a text with both tags whose root tag is not at the
    end is incomplete. *)
Theorem is_html_complete_characterization (lower : str -> str) (s : str) :
  let t := strip (lower s) in
  (is_html_complete lower s = true <->
     infix closing_html t /\ infix closing_body t /\ closing_html `suffix_of` t)
  /\ (~ (infix closing_html t /\ infix closing_body t) ->
      is_html_complete lower s = false)
  /\ ((exists a b, t = a ++ closing_body ++ b ++ closing_html) ->
      is_html_complete lower s = true)
  /\ (infix closing_html t -> infix closing_body t ->
      ~ closing_html `suffix_of` t -> is_html_complete lower s = false).
Proof.
  intros t.
  assert (is_html_complete lower s = true <->
     infix closing_html t /\ infix closing_body t /\ closing_html `suffix_of` t)
    as Hiff.
  { unfold is_html_complete. fold t.
    rewrite !andb_true_iff, orb_true_iff, !contains_infix, !endswith_suffix.
    split.
    - intros [[H1 H2] [H3|H3]]; [done|].
      by apply strip_ends_unspaced in H3.
    - intros (H1 & H2 & H3). auto. }
  split; [done|]. repeat split.
  - intros H. apply not_true_is_false. rewrite Hiff. tauto.
  - intros (a & b & H). apply Hiff. repeat split.
    + exists (a ++ closing_body ++ b), []. rewrite H.
      by rewrite app_nil_r, <- !(assoc_L (++)).
    + exists a, (b ++ closing_html). by rewrite H.
    + exists (a ++ closing_body ++ b). rewrite H. by rewrite <- !(assoc_L (++)).
  - intros _ _ H. apply not_true_is_false. rewrite Hiff. tauto.
Qed.

(** The sample document, in any letter case and with white space after it,
    is complete. *)
Lemma is_html_complete_characterization_witness :
  is_html_complete ascii_lower (py "<HTML><BODY>x</BODY></HTML>  ") = true.
Proof.
  apply (proj1 (proj2 (proj2
           (is_html_complete_characterization ascii_lower
              (py "<HTML><BODY>x</BODY></HTML>  "))))).
  exists (py "<html><body>x"), []. reflexivity.
Defined.

(** ** The text normalizer *)

Lemma str_length_ind (P : str -> Prop) :
  (forall s : str, (forall u : str, length u < length s -> P u) -> P s) ->
  forall s, P s.
Proof.
  intros H s. remember (length s) as n eqn:E. revert s E.
  induction n as [n IH] using lt_wf_ind. intros s ->.
  apply H. intros u Hu. by apply (IH (length u)).
Qed.

Lemma re_sub_unfold l lit c s :
  re_sub_opt_nl (l :: lit) (c :: s) =
  if startswith (c :: s) (l :: lit)
  then re_sub_opt_nl (l :: lit) (skip_opt nl (drop (length lit) s))
  else c :: re_sub_opt_nl (l :: lit) s.
Proof.
  simp re_sub_opt_nl. by destruct (startswith (c :: s) (l :: lit)).
Qed.

Lemma re_sub_removes l lit s :
  removes (l :: lit) s (re_sub_opt_nl (l :: lit) s).
Proof.
  induction s as [s IH] using str_length_ind.
  destruct s as [|c s]; [simp re_sub_opt_nl; constructor|].
  rewrite re_sub_unfold. destruct (startswith (c :: s) (l :: lit)) eqn:E.
  - apply startswith_prefix in E as [k Hk]. simpl in Hk. simplify_eq.
    rewrite drop_app_length.
    assert (forall k' : str, length k' <= length k ->
              removes (l :: lit) k' (re_sub_opt_nl (l :: lit) k')) as IHk.
    { intros k' Hk'. apply IH. simpl. rewrite length_app. lia. }
    change (l :: lit ++ k) with ((l :: lit) ++ k).
    destruct k as [|x k]; simpl skip_opt.
    + apply removes_lit, IHk. done.
    + destruct (N.eqb_spec x nl) as [->|_].
      * apply removes_lit_nl, IHk. simpl. lia.
      * apply removes_lit, IHk. done.
  - constructor. apply IH. simpl. lia.
Qed.

Lemma re_sub_absent l lit s :
  contains s (l :: lit) = false -> re_sub_opt_nl (l :: lit) s = s.
Proof.
  induction s as [|c s IH]; [by simp re_sub_opt_nl|].
  intros H. cbn [contains] in H. apply orb_false_iff in H as [H1 H2].
  rewrite re_sub_unfold, H1. f_equal. by apply IH.
Qed.

Lemma fence_cons : fence = [backtick; backtick; backtick].
Proof. reflexivity. Qed.

Lemma re_sub_fence_cons c s :
  re_sub_opt_nl fence (c :: s) =
  if N.eqb c backtick && startswith s [backtick; backtick]
  then re_sub_opt_nl fence (skip_opt nl (drop 2 s))
  else c :: re_sub_opt_nl fence s.
Proof. apply (re_sub_unfold backtick [backtick; backtick]). Qed.

Lemma re_sub_fence_head1 s :
  startswith s [backtick] = false ->
  startswith (re_sub_opt_nl fence s) [backtick] = false.
Proof.
  destruct s as [|c s]; [done|]. cbn [startswith]. rewrite andb_true_r.
  intros H. rewrite re_sub_fence_cons, H. cbn. by rewrite H.
Qed.

Lemma re_sub_fence_head2 s :
  startswith s [backtick; backtick] = false ->
  startswith (re_sub_opt_nl fence s) [backtick; backtick] = false.
Proof.
  destruct s as [|c s]; [done|]. cbn [startswith]. intros H.
  rewrite re_sub_fence_cons.
  destruct (N.eqb c backtick) eqn:Ec; cbn [andb] in *.
  - assert (startswith s [backtick; backtick] = false) as ->.
    { destruct s as [|x s]; [done|]. cbn [startswith] in *.
      apply andb_false_iff in H as [H|H]; [by rewrite H | done]. }
    cbn [startswith]. rewrite Ec. cbn [andb]. by apply re_sub_fence_head1.
  - cbn [startswith]. by rewrite Ec.
Qed.

(** No fence marker is left by the second substitution. *)
Lemma re_sub_fence_clean s : contains (re_sub_opt_nl fence s) fence = false.
Proof.
  induction s as [s IH] using str_length_ind.
  destruct s as [|c s]; [done|].
  rewrite re_sub_fence_cons.
  destruct (N.eqb c backtick && startswith s [backtick; backtick]) eqn:E.
  - apply IH. assert (length (skip_opt nl (drop 2 s)) <= length s); [|simpl; lia].
    transitivity (length (drop 2 s)); [|rewrite length_drop; lia].
    destruct (drop 2 s) as [|x r]; simpl; [lia|].
    destruct (N.eqb x nl); simpl; lia.
  - cbn [contains]. rewrite IH by (simpl; lia). rewrite orb_false_r.
    change (startswith (c :: re_sub_opt_nl fence s) fence)
      with (N.eqb c backtick &&
            startswith (re_sub_opt_nl fence s) [backtick; backtick]).
    apply andb_false_iff in E as [E|E]; [by rewrite E|].
    rewrite re_sub_fence_head2 by done. apply andb_false_r.
Qed.

Lemma contains_false_infix s n : contains s n = false <-> ~ infix n s.
Proof. rewrite <- contains_infix. by destruct (contains s n). Qed.

Lemma contains_fence_html s : contains s fence = false -> contains s fence_html = false.
Proof.
  rewrite !contains_false_infix. intros H H'. apply H.
  by apply (infix_prefix_needle fence (py "html")).
Qed.

Lemma contains_strip s n : contains s n = false -> contains (strip s) n = false.
Proof. rewrite !contains_false_infix. intros H H'. by apply H, strip_infix. Qed.

(** The text before the final [strip], in the three cases of [clean_html]. *)
Lemma clean_html_cases s :
  exists out, clean_html s = strip out /\ contains out fence = false /\
    ((contains s fence_html = true /\
      exists mid, removes fence_html s mid /\ removes fence mid out) \/
     (contains s fence_html = false /\ contains s fence = true /\
      removes fence s out) \/
     (contains s fence = false /\ out = s)).
Proof.
  unfold clean_html. destruct (contains s fence_html) eqn:E1.
  - eexists. split; [done|]. split; [apply re_sub_fence_clean|].
    left. split; [done|]. eexists. split; apply re_sub_removes.
  - destruct (contains s fence) eqn:E2.
    + eexists. split; [done|]. split; [apply re_sub_fence_clean|].
      right; left. repeat split. apply re_sub_removes.
    + exists s. split; [done|]. split; [done|]. by right; right.
Qed.

Lemma clean_html_unfenced s : contains s fence = false -> clean_html s = strip s.
Proof.
  intros H. unfold clean_html. by rewrite contains_fence_html, H.
Qed.

Lemma clean_html_no_fence s : contains (clean_html s) fence = false.
Proof.
  destruct (clean_html_cases s) as (out & -> & H & _). by apply contains_strip.
Qed.

Lemma clean_html_idemp s : clean_html (clean_html s) = clean_html s.
Proof.
  rewrite (clean_html_unfenced (clean_html s)) by apply clean_html_no_fence.
  destruct (clean_html_cases s) as (out & -> & _). apply strip_idemp.
Qed.

Lemma startswith_fence_app u r :
  startswith u fence = false -> startswith (u ++ nl :: r) fence = false.
Proof.
  rewrite fence_cons.
  destruct u as [|a [|b [|c u]]]; cbn [startswith app]; try done.
  all: intros _; by rewrite !andb_false_r.
Qed.

Lemma re_sub_fence_closing t :
  contains t fence = false -> re_sub_opt_nl fence (t ++ nl :: fence) = t ++ [nl].
Proof.
  induction t as [|c t IH]; [done|].
  cbn [contains]. intros [H1 H2]%orb_false_iff.
  change ((c :: t) ++ nl :: fence) with (c :: (t ++ nl :: fence)).
  rewrite re_sub_fence_cons.
  change (N.eqb c backtick && startswith (t ++ nl :: fence) [backtick; backtick])
    with (startswith ((c :: t) ++ nl :: fence) fence).
  by rewrite (startswith_fence_app (c :: t) fence H1), IH.
Qed.

Lemma contains_fence_html_closing t :
  contains t fence = false -> contains (t ++ nl :: fence) fence_html = false.
Proof.
  induction t as [|c t IH]; [done|].
  cbn [contains]. intros [H1 H2]%orb_false_iff.
  change ((c :: t) ++ nl :: fence) with (c :: (t ++ nl :: fence)).
  cbn [contains]. rewrite IH by done. rewrite orb_false_r.
  apply not_true_is_false. intros [k Hk]%startswith_prefix.
  pose proof (startswith_fence_app (c :: t) fence H1) as H.
  apply not_true_iff_false in H. apply H, startswith_prefix.
  exists (py "html" ++ k). exact Hk.
Qed.

(** C6. [clean_html] is idempotent, and a text without fence markers that is
    wrapped in a tagged fence comes back trimmed. Both source files have the
    same [clean_html], which this one definition embeds. *)
Theorem clean_html_idempotent_roundtrip :
  (forall s, clean_html (clean_html s) = clean_html s) /\
  (forall t, ~ infix fence t ->
     clean_html (fence_html ++ [nl] ++ t ++ [nl] ++ fence) = strip t).
Proof.
  split; [apply clean_html_idemp|].
  intros t Ht%contains_false_infix. unfold clean_html.
  assert (contains (fence_html ++ [nl] ++ t ++ [nl] ++ fence) fence_html = true)
    as ->.
  { apply contains_infix. by exists [], ([nl] ++ t ++ [nl] ++ fence). }
  assert (re_sub_opt_nl fence_html (fence_html ++ [nl] ++ t ++ [nl] ++ fence)
          = t ++ nl :: fence) as ->.
  { change (fence_html ++ [nl] ++ t ++ [nl] ++ fence)
      with (backtick :: py "``html" ++ nl :: t ++ nl :: fence).
    change fence_html with (backtick :: py "``html").
    rewrite re_sub_unfold.
    change (re_sub_opt_nl (backtick :: py "``html") (t ++ nl :: fence)
            = t ++ nl :: fence).
    by apply (re_sub_absent backtick (py "``html")), contains_fence_html_closing. }
  rewrite re_sub_fence_closing by done. by apply strip_snoc_space.
Qed.

(** A fenced answer of the provider, cleaned. *)
Lemma clean_html_roundtrip_witness :
  clean_html (fence_html ++ [nl] ++ py " <p>hi</p>" ++ [nl] ++ fence)
  = py "<p>hi</p>".
Proof.
  rewrite (proj2 clean_html_idempotent_roundtrip (py " <p>hi</p>")).
  - reflexivity.
  - apply contains_false_infix. reflexivity.
Defined.

(** The substitution deletes the literal wherever the reading from the left
    finds it. *)
Lemma re_sub_removes_all l lit s :
  removes_all (l :: lit) s (re_sub_opt_nl (l :: lit) s).
Proof.
  induction s as [s IH] using str_length_ind.
  destruct s as [|c s]; [simp re_sub_opt_nl; constructor|].
  rewrite re_sub_unfold. destruct (startswith (c :: s) (l :: lit)) eqn:E.
  - apply startswith_prefix in E as [k Hk]. simpl in Hk. simplify_eq.
    rewrite drop_app_length.
    assert (forall k' : str, length k' <= length k ->
              removes_all (l :: lit) k' (re_sub_opt_nl (l :: lit) k')) as IHk.
    { intros k' Hk'. apply IH. simpl. rewrite length_app. lia. }
    change (l :: lit ++ k) with ((l :: lit) ++ k).
    destruct k as [|x k]; simpl skip_opt.
    + apply removes_all_lit; [by intros [? ?] | by apply IHk].
    + destruct (N.eqb_spec x nl) as [->|Hx].
      * apply removes_all_lit_nl, IHk. simpl. lia.
      * apply removes_all_lit; [|by apply IHk].
        intros [? ?]. by simplify_eq/=.
  - apply removes_all_keep; [|apply IH; simpl; lia].
    rewrite <- startswith_prefix. by rewrite E.
Qed.

(** The substitution is the only text the relation allows. *)
Lemma removes_all_unique l lit s out :
  removes_all (l :: lit) s out -> out = re_sub_opt_nl (l :: lit) s.
Proof.
  induction 1 as [|c s out Hc _ IH|s out Hs _ IH|s out _ IH].
  - by simp re_sub_opt_nl.
  - rewrite re_sub_unfold.
    destruct (startswith (c :: s) (l :: lit)) eqn:E; [|by rewrite IH].
    by apply startswith_prefix in E.
  - change ((l :: lit) ++ s) with (l :: (lit ++ s)). rewrite re_sub_unfold.
    assert (startswith (l :: lit ++ s) (l :: lit) = true) as ->
      by (apply startswith_prefix; by exists s).
    rewrite drop_app_length. destruct s as [|x s]; [done|]. cbn [skip_opt].
    destruct (N.eqb_spec x nl) as [->|_]; [|done].
    exfalso. apply Hs. by exists s.
  - change ((l :: lit) ++ nl :: s) with (l :: (lit ++ nl :: s)).
    rewrite re_sub_unfold.
    assert (startswith (l :: lit ++ nl :: s) (l :: lit) = true) as ->
      by (apply startswith_prefix; by exists (nl :: s)).
    rewrite drop_app_length. cbn [skip_opt]. by rewrite N.eqb_refl.
Qed.

Lemma removes_all_removes lit s out : removes_all lit s out -> removes lit s out.
Proof. induction 1; by constructor. Qed.

(** C7, as the code has it. With a tagged opener in the text, the text is
    read from the left and every tagged marker found is deleted, with the
    newline after it if there is one; the result is read again and every
    bare marker found is deleted in the same way. With only bare markers in
    the text, the second step alone is done. In both cases no fence marker
    is left. In every case, also the third, the text is then trimmed of
    leading and trailing white space. The relation [removes_all] fixes the
    result of a step: a character stays only where the marker does not
    start. *)
Theorem clean_html_algorithm (s : str) :
  (contains s fence_html = true ->
     exists mid out, removes_all fence_html s mid /\ removes_all fence mid out /\
       ~ infix fence out /\ clean_html s = strip out) /\
  (contains s fence_html = false -> contains s fence = true ->
     exists out, removes_all fence s out /\
       ~ infix fence out /\ clean_html s = strip out) /\
  (contains s fence = false -> clean_html s = strip s) /\
  ~ infix fence (clean_html s) /\ ~ infix fence_html (clean_html s) /\
  (forall lit mid mid', lit <> [] ->
     removes_all lit s mid -> removes_all lit s mid' -> mid = mid').
Proof.
  split; [|split; [|split; [|split; [|split]]]].
  - intros H. unfold clean_html. rewrite H.
    exists (re_sub_opt_nl fence_html s),
           (re_sub_opt_nl fence (re_sub_opt_nl fence_html s)).
    split; [apply re_sub_removes_all|]. split; [apply re_sub_removes_all|].
    split; [|done]. apply contains_false_infix, re_sub_fence_clean.
  - intros H1 H2. unfold clean_html. rewrite H1, H2.
    exists (re_sub_opt_nl fence s). split; [apply re_sub_removes_all|].
    split; [|done]. apply contains_false_infix, re_sub_fence_clean.
  - apply clean_html_unfenced.
  - apply contains_false_infix, clean_html_no_fence.
  - apply contains_false_infix, contains_fence_html, clean_html_no_fence.
  - intros [|l lit] mid mid' Hlit H1 H2; [done|].
    apply removes_all_unique in H1, H2. congruence.
Qed.

(** A text without markers is trimmed; of a document in a tagged fence the
    opener goes with its tag and its newline, and the closing marker. *)
Lemma clean_html_algorithm_witness :
  clean_html (py " a ") = py "a" /\
  clean_html (fence_html ++ nl :: py "<p>hi</p>" ++ nl :: fence) = py "<p>hi</p>".
Proof.
  split.
  - apply (proj1 (proj2 (proj2 (clean_html_algorithm (py " a "))))). reflexivity.
  - destruct (proj1 (clean_html_algorithm
                       (fence_html ++ nl :: py "<p>hi</p>" ++ nl :: fence))
                eq_refl) as (mid & out & Hmid & Hout & _ & ->).
    apply (removes_all_unique backtick (py "``html")) in Hmid. subst mid.
    apply (removes_all_unique backtick (py "``")) in Hout. subst out.
    reflexivity.
Defined.

(** C7 as stated fails in its last case: a text without any fence marker is
    not returned unchanged, its surrounding white space is removed. *)
Lemma clean_html_unfenced_not_unchanged :
  contains (py " a ") fence_html = false /\
  contains (py " a ") fence = false /\
  clean_html (py " a ") <> py " a ".
Proof. repeat split. vm_compute. discriminate. Qed.

(** ** The continuation loop *)

Lemma calls_logged_all w ms : calls (logged_all w ms) = calls w ++ ms.
Proof.
  unfold calls, logged_all. cbn [requests]. rewrite fmap_app. f_equal.
  rewrite <- list_fmap_compose. apply list_fmap_id.
Qed.

Lemma calls_logged w m : calls (logged w m) = calls w ++ [m].
Proof. apply calls_logged_all. Qed.

Lemma logged_all_nil w : logged_all w [] = w.
Proof. unfold logged_all. simpl. rewrite app_nil_r. by destruct w. Qed.

Lemma logged_all_cons w m ms : logged_all (logged w m) ms = logged_all w (m :: ms).
Proof.
  unfold logged, logged_all. cbn [fs requests fmap list_fmap].
  by rewrite <- (assoc_L (++)).
Qed.

Section Engine.

Variable lower : str -> str.
Variable llm : nat -> messages -> completion.

Lemma while_loop_eq st :
  while_loop lower llm st =
  if loop_test lower st
  then continuation <- loop_request llm st ;;
       while_loop lower llm (loop_append st continuation)
  else ret st.
Proof.
  rewrite while_loop_equation_1.
  destruct (inspect (loop_test lower st)) as [[] e];
    cbn [while_loop_unfold_clause_1]; rewrite e; reflexivity.
Qed.

Lemma call_llm_cases user_prompt system_prompt w :
  let m := build_messages user_prompt system_prompt in
  (exists c, llm (length (calls w)) m = Completion c /\
     call_llm llm user_prompt system_prompt w = (Ok c, logged w m)) \/
  (exists e, llm (length (calls w)) m = Failure e /\
     call_llm llm user_prompt system_prompt w
     = (Raise (ProviderError e), logged w m)).
Proof.
  intros m. unfold call_llm. fold m.
  destruct (llm (length (calls w)) m) as [c|e]; [left|right]; eauto.
Qed.

Lemma loop_request_cases st w :
  let m := continuation_messages (cleaned_html st) in
  (exists c, llm (length (calls w)) m = Completion c /\
     loop_request llm st w = (Ok c, logged w m)) \/
  (exists e, llm (length (calls w)) m = Failure e /\
     loop_request llm st w = (Raise (ProviderError e), logged w m)).
Proof. apply call_llm_cases. Qed.

Lemma while_loop_done st w :
  loop_test lower st = false -> while_loop lower llm st w = (Ok st, w).
Proof. intros H. by rewrite while_loop_eq, H. Qed.

Lemma while_loop_iter st w c w' :
  loop_test lower st = true -> loop_request llm st w = (Ok c, w') ->
  while_loop lower llm st w = while_loop lower llm (loop_append st c) w'.
Proof. intros H E. rewrite while_loop_eq, H. unfold bind. by rewrite E. Qed.

Lemma while_loop_raise st w e w' :
  loop_test lower st = true -> loop_request llm st w = (Raise e, w') ->
  while_loop lower llm st w = (Raise e, w').
Proof. intros H E. rewrite while_loop_eq, H. unfold bind. by rewrite E. Qed.

Lemma loop_test_budget st :
  loop_test lower st = true -> continuation_attempts st < max_continuations.
Proof. intros [_ H%Nat.ltb_lt]%andb_true_iff. done. Qed.

Lemma accumulated_S o k :
  accumulated o (S k) = accumulated o k ++ [nl] ++ clean_html (o (S k)).
Proof.
  unfold accumulated. rewrite seq_S, flat_map_app. simpl.
  by rewrite app_nil_r, <- (assoc_L (++)).
Qed.

Lemma loop_append_engine_state o k :
  loop_append (engine_state o k) (o (S k)) = engine_state o (S k).
Proof.
  unfold loop_append, engine_state. simpl.
  by rewrite accumulated_S, Nat.add_1_r.
Qed.

(** A run of the loop whose answers are [o]: from [k] attempts to [N]. *)
Lemma while_loop_run o base N : forall d k w,
  N = k + d ->
  (forall i, k <= i < N -> loop_test lower (engine_state o i) = true) ->
  loop_test lower (engine_state o N) = false ->
  (forall i, k <= i < N ->
     llm (base + S i) (continuation_messages (accumulated o i))
     = Completion (o (S i))) ->
  length (calls w) = base + S k ->
  while_loop lower llm (engine_state o k) w
  = (Ok (engine_state o N),
     logged_all w
       ((fun i => continuation_messages (accumulated o i)) <$> seq k d)).
Proof.
  induction d as [|d IH]; intros k w HN Htest Hend Hllm Hlen.
  - rewrite Nat.add_0_r in HN. subst k. rewrite while_loop_done by done.
    cbn [seq fmap list_fmap]. by rewrite logged_all_nil.
  - destruct (loop_request_cases (engine_state o k) w) as
      [(c & Hc & Hreq) | (e & He & _)]; cbn [cleaned_html engine_state] in *.
    2: { rewrite Hlen, Hllm in He by lia. discriminate. }
    rewrite Hlen, Hllm in Hc by lia. injection Hc as <-.
    rewrite (while_loop_iter _ _ _ _ (Htest k ltac:(lia)) Hreq).
    rewrite loop_append_engine_state, (IH (S k)).
    + by rewrite logged_all_cons.
    + lia.
    + intros i Hi. apply Htest. lia.
    + done.
    + intros i Hi. apply Hllm. lia.
    + rewrite calls_logged, length_app, Hlen. simpl. lia.
Qed.

Lemma continuation_engine_run o N user_prompt system_prompt w :
  answers llm (length (calls w)) user_prompt system_prompt o N ->
  (forall i, i < N -> loop_test lower (engine_state o i) = true) ->
  loop_test lower (engine_state o N) = false ->
  continuation_engine lower llm user_prompt system_prompt w
  = (Ok (accumulated o N),
     logged_all w
       (build_messages user_prompt system_prompt ::
          ((fun i => continuation_messages (accumulated o i)) <$> seq 0 N))).
Proof.
  intros [H0 Hk] Htest Hend. unfold continuation_engine, bind.
  destruct (call_llm_cases user_prompt system_prompt w) as
    [(c & Hc & ->) | (e & He & _)]; [|congruence].
  rewrite H0 in Hc. injection Hc as <-.
  assert (accumulated o 0 = clean_html (o 0)) as E0
    by (unfold accumulated; simpl; apply app_nil_r).
  replace {| cleaned_html := clean_html (o 0); continuation_attempts := 0 |}
    with (engine_state o 0) by (unfold engine_state; by rewrite E0).
  rewrite (while_loop_run o (length (calls w)) N N 0).
  - unfold ret. cbn [cleaned_html engine_state]. by rewrite logged_all_cons.
  - done.
  - intros i Hi. apply Htest. lia.
  - done.
  - intros i Hi. apply Hk. lia.
  - rewrite calls_logged, length_app. simpl. lia.
Qed.

(** The loop stops within its budget, and ends in a state it went through
    whose test fails. *)
Lemma while_loop_bounded st0 w0 : forall n st w r w',
  max_continuations - continuation_attempts st <= n ->
  loop_reach lower llm st0 w0 st w ->
  while_loop lower llm st w = (r, w') ->
  length (calls w') <= length (calls w) + (max_continuations - continuation_attempts st) /\
  forall st', r = Ok st' ->
    loop_reach lower llm st0 w0 st' w' /\ loop_test lower st' = false.
Proof.
  induction n as [|n IH]; intros st w r w' Hn Hreach Hrun;
    destruct (loop_test lower st) eqn:Htest.
  - apply loop_test_budget in Htest. lia.
  - rewrite while_loop_done in Hrun by done. simplify_eq. split; [lia|].
    by intros st' [= <-].
  - pose proof (loop_test_budget _ Htest) as Hlt.
    destruct (loop_request_cases st w) as [(c & _ & Hreq) | (e & _ & Hreq)].
    + rewrite (while_loop_iter _ _ _ _ Htest Hreq) in Hrun.
      apply IH in Hrun as [Hlen Hfin].
      * split; [|done]. rewrite calls_logged, length_app in Hlen.
        simpl in *. lia.
      * simpl. lia.
      * by eapply reach_iter.
    + rewrite (while_loop_raise _ _ _ _ Htest Hreq) in Hrun. simplify_eq.
      split; [|done]. rewrite calls_logged, length_app. simpl. lia.
  - rewrite while_loop_done in Hrun by done. simplify_eq. split; [lia|].
    by intros st' [= <-].
Qed.

Lemma loop_reach_invariant st0 w0 st w :
  continuation_attempts st0 = 0 ->
  loop_reach lower llm st0 w0 st w ->
  length (cleaned_html st0) <= length (cleaned_html st) /\
  continuation_attempts st <= max_continuations /\
  length (calls w) = length (calls w0) + continuation_attempts st.
Proof.
  intros H0. induction 1 as [|st w c w' _ (IH1 & IH2 & IH3) Htest Hreq].
  - rewrite H0. unfold max_continuations. lia.
  - apply loop_test_budget in Htest.
    destruct (loop_request_cases st w) as [(? & _ & E) | (? & _ & E)];
      rewrite E in Hreq; simplify_eq.
    rewrite calls_logged. cbn [loop_append cleaned_html continuation_attempts].
    rewrite !length_app. simpl. lia.
Qed.

(** *** Requests of a run and their answers *)

Lemma provider_run_refl {A} w (r : result A) : provider_run llm w w r.
Proof.
  split; [done|]. split; [done|]. intros i m Hi%lookup_lt_Some Hle. lia.
Qed.

Lemma provider_run_trans {A B} w w1 w2 (a : A) (r : result B) :
  provider_run llm w w1 (Ok a) -> provider_run llm w1 w2 r ->
  provider_run llm w w2 r.
Proof.
  intros (Hfs1 & Hp1 & H1) (Hfs2 & Hp2 & H2).
  split; [congruence|]. split; [by etrans|].
  intros i m Hi Hle. destruct (decide (i < length (calls w1))) as [Hlt|Hge].
  - destruct Hp2 as [k Hk]. rewrite Hk, lookup_app_l in Hi by done.
    specialize (H1 i m Hi Hle). destruct (llm i m); [done|]. by destruct H1.
  - apply H2; [done | lia].
Qed.

Lemma provider_run_raise {A B} w w' e :
  provider_run llm w w' (@Raise A e) -> provider_run llm w w' (@Raise B e).
Proof.
  intros (? & ? & H). repeat split; [done..|].
  intros i m Hi Hle. specialize (H i m Hi Hle).
  destruct (llm i m); [done|]. destruct H as [? [= ->]]. done.
Qed.

Lemma provider_run_call user_prompt system_prompt w r w' :
  call_llm llm user_prompt system_prompt w = (r, w') ->
  provider_run llm w w' r /\ forall e, r = Raise e -> exists m, e = ProviderError m.
Proof.
  intros Hrun.
  assert (forall i m, logged w (build_messages user_prompt system_prompt)
            = w' -> calls w' !! i = Some m -> length (calls w) <= i ->
            i = length (calls w) /\ m = build_messages user_prompt system_prompt)
    as Hlast.
  { intros i m <- Hi Hle. rewrite calls_logged in Hi.
    pose proof (lookup_lt_Some _ _ _ Hi) as Hlt.
    rewrite length_app in Hlt. simpl in Hlt.
    assert (i = length (calls w)) as -> by lia.
    rewrite lookup_app_r, Nat.sub_diag in Hi by done. by simplify_eq/=. }
  destruct (call_llm_cases user_prompt system_prompt w) as
    [(c & Hc & E) | (e & He & E)]; rewrite E in Hrun; simplify_eq.
  - split; [|done]. split; [done|].
    split; [rewrite calls_logged; by eexists|].
    intros i m Hi Hle. destruct (Hlast i m eq_refl Hi Hle) as [-> ->].
    by rewrite Hc.
  - split; [|intros ? [= <-]; eauto]. split; [done|].
    split; [rewrite calls_logged; by eexists|].
    intros i m Hi Hle. destruct (Hlast i m eq_refl Hi Hle) as [-> ->].
    rewrite He. split; [|done]. rewrite calls_logged, length_app. simpl. lia.
Qed.

Lemma provider_run_loop : forall n st w r w',
  max_continuations - continuation_attempts st <= n ->
  while_loop lower llm st w = (r, w') ->
  provider_run llm w w' r /\ forall e, r = Raise e -> exists m, e = ProviderError m.
Proof.
  induction n as [|n IH]; intros st w r w' Hn Hrun;
    destruct (loop_test lower st) eqn:Htest.
  - apply loop_test_budget in Htest. lia.
  - rewrite while_loop_done in Hrun by done. simplify_eq.
    split; [apply provider_run_refl | done].
  - pose proof (loop_test_budget _ Htest) as Hlt.
    destruct (loop_request llm st w) as [[c|e] w1] eqn:Hreq.
    + rewrite (while_loop_iter _ _ _ _ Htest Hreq) in Hrun.
      apply provider_run_call in Hreq as [Hreq _].
      apply IH in Hrun as [Hrun Hexn]; [|simpl; lia].
      split; [by eapply provider_run_trans | done].
    + rewrite (while_loop_raise _ _ _ _ Htest Hreq) in Hrun. simplify_eq.
      apply provider_run_call in Hreq as [Hreq Hexn].
      split; [by eapply provider_run_raise|].
      intros ? [= <-]. by apply Hexn.
  - rewrite while_loop_done in Hrun by done. simplify_eq.
    split; [apply provider_run_refl | done].
Qed.

Lemma provider_run_engine user_prompt system_prompt w r w' :
  continuation_engine lower llm user_prompt system_prompt w = (r, w') ->
  provider_run llm w w' r /\ forall e, r = Raise e -> exists m, e = ProviderError m.
Proof.
  unfold continuation_engine, bind. intros Hrun.
  destruct (call_llm llm user_prompt system_prompt w) as [[c|e] w1] eqn:Hcall.
  - apply provider_run_call in Hcall as [Hcall _].
    destruct (while_loop lower llm _ w1) as [[st|e] w2] eqn:Hloop.
    + apply (provider_run_loop _ _ _ _ _ (Nat.le_refl _)) in Hloop as [Hloop _].
      unfold ret in Hrun. simplify_eq.
      split; [|done]. eapply provider_run_trans; [done|].
      destruct Hloop as (? & ? & H). repeat split; [done..|].
      intros i m Hi Hle. specialize (H i m Hi Hle).
      destruct (llm i m); [done|]. by destruct H.
    + apply (provider_run_loop _ _ _ _ _ (Nat.le_refl _)) in Hloop as [Hloop Hexn].
      simplify_eq. split; [|intros ? [= <-]; by apply Hexn].
      eapply provider_run_trans; [done|]. by eapply provider_run_raise.
  - simplify_eq. apply provider_run_call in Hcall as [Hcall Hexn].
    split; [by eapply provider_run_raise|]. intros ? [= <-]. by apply Hexn.
Qed.

End Engine.

(** The number of requests in the log after a run of the engine. *)
Ltac count_requests :=
  rewrite ?calls_logged_all, ?length_app; cbn [length];
  rewrite ?length_fmap, ?length_seq; lia.

(** C1. When the completeness check fails on the first [N] accumulated texts
    and holds on the next one, [N] within the budget, the engine sends
    exactly [N + 1] requests and returns the cleaned first output followed by
    the [N] cleaned continuations, each after exactly one newline. The files
    are not touched. *)
Theorem continuation_engine_calls_and_output
    (lower : str -> str) (llm : nat -> messages -> completion)
    (o : nat -> str) (N : nat) (user_prompt system_prompt : str) (w : world) :
  N <= max_continuations ->
  answers llm (length (calls w)) user_prompt system_prompt o N ->
  (forall k, k < N -> is_html_complete lower (accumulated o k) = false) ->
  is_html_complete lower (accumulated o N) = true ->
  exists w',
    continuation_engine lower llm user_prompt system_prompt w
    = (Ok (clean_html (o 0)
           ++ flat_map (fun j => nl :: clean_html (o j)) (seq 1 N)), w') /\
    length (calls w') = length (calls w) + (N + 1) /\
    calls w `prefix_of` calls w' /\
    fs w' = fs w.
Proof.
  intros HN Hans Hinc Hdone. eexists. split.
  - apply continuation_engine_run; [done| |].
    + intros i Hi. unfold loop_test, engine_state.
      cbn [cleaned_html continuation_attempts].
      rewrite Hinc by done. cbn [negb andb]. apply Nat.ltb_lt. lia.
    + unfold loop_test, engine_state. cbn [cleaned_html]. by rewrite Hdone.
  - split; [|split; [rewrite calls_logged_all; by eexists | done]].
    count_requests.
Qed.

(** C3. In a run of the loop from a state with no attempts, as both handlers
    start it: every state the loop goes through has a text at least as long
    as the first, at most five attempts, and as many requests sent as
    attempts made; an iteration appends a newline and the cleaned
    continuation; and the loop ends, after at most five requests, in a state
    it went through whose test fails, or with the failure of a request. *)
Theorem continuation_state_invariant
    (lower : str -> str) (llm : nat -> messages -> completion)
    (st0 : ContinuationState) (w0 : world) :
  continuation_attempts st0 = 0 ->
  (forall st w, loop_reach lower llm st0 w0 st w ->
     length (cleaned_html st0) <= length (cleaned_html st) /\
     continuation_attempts st <= max_continuations /\
     length (calls w) = length (calls w0) + continuation_attempts st /\
     forall continuation,
       cleaned_html (loop_append st continuation)
       = cleaned_html st ++ [nl] ++ clean_html continuation /\
       length (cleaned_html st) < length (cleaned_html (loop_append st continuation)) /\
       continuation_attempts (loop_append st continuation)
       = S (continuation_attempts st)) /\
  exists r w',
    while_loop lower llm st0 w0 = (r, w') /\
    length (calls w') <= length (calls w0) + max_continuations /\
    forall st', r = Ok st' ->
      loop_reach lower llm st0 w0 st' w' /\ loop_test lower st' = false.
Proof.
  intros H0. split.
  - intros st w Hreach.
    destruct (loop_reach_invariant lower llm st0 w0 st w H0 Hreach)
      as (H1 & H2 & H3).
    repeat split; [done..| |].
    + cbn. rewrite length_app. simpl. lia.
    + cbn. lia.
  - destruct (while_loop lower llm st0 w0) as [r w'] eqn:Hrun.
    exists r, w'. split; [done|].
    destruct (while_loop_bounded lower llm st0 w0 _ st0 w0 r w'
                (Nat.le_refl _) (reach_start _ _ _ _) Hrun) as [Hlen Hfin].
    split; [lia | done].
Qed.

(** The two-part answer of the sample provider: two requests, one newline. *)
Lemma continuation_engine_calls_and_output_witness :
  exists w',
    continuation_engine ascii_lower two_part_llm (py "ocean") [] sample_world
    = (Ok (py "<html><body><p>Ocean</" ++ nl :: py "p></body></html>"), w') /\
    length (calls w') = 2.
Proof.
  destruct (continuation_engine_calls_and_output ascii_lower two_part_llm
              two_part 1 (py "ocean") [] sample_world)
    as (w' & Hrun & Hlen & _).
  - unfold max_continuations. lia.
  - split; [reflexivity|]. intros k Hk. reflexivity.
  - intros k Hk. assert (k = 0) as -> by lia. vm_compute. reflexivity.
  - vm_compute. reflexivity.
  - exists w'. split; [exact Hrun | exact Hlen].
Defined.

(** The loop on the endless provider stops after five requests. *)
Lemma continuation_state_invariant_witness :
  exists r w',
    while_loop ascii_lower endless_llm
      {| cleaned_html := py "<p>"; continuation_attempts := 0 |} sample_world
    = (r, w') /\
    length (calls w') <= 5.
Proof.
  destruct (continuation_state_invariant ascii_lower endless_llm
              {| cleaned_html := py "<p>"; continuation_attempts := 0 |}
              sample_world) as (_ & r & w' & Hrun & Hlen & _).
  - reflexivity.
  - exists r, w'. split; [exact Hrun | exact Hlen].
Defined.

(** ** The handlers *)

Lemma lookup_error_os l : os_error (lookup_error l).
Proof. by destruct l. Qed.

Lemma fs_read_text_raises (t : gmap Path node) p e :
  fs_read_text t p = Raise e -> os_error e.
Proof.
  unfold fs_read_text. destruct (locate t p) as [q| | |] eqn:E;
    try (intros [= <-]; exact I).
  destruct (is_dir t q); [by intros [= <-]|].
  destruct (t !! q) as [[]|]; [done|by intros [= <-]..].
Qed.

Lemma fs_unlink_raises (t : gmap Path node) p e :
  fs_unlink t p = Raise e -> os_error e.
Proof.
  unfold fs_unlink. destruct (locate t p) as [q| | |] eqn:E;
    try (intros [= <-]; exact I).
  destruct (is_dir t q); [by intros [= <-]|].
  destruct (t !! q) as [[]|]; [done|by intros [= <-]..].
Qed.

Lemma fs_open_w_raises (t : gmap Path node) p e :
  fs_open_w t p = Raise e -> os_error e.
Proof.
  unfold fs_open_w. destruct (locate t p) as [q| | |] eqn:E;
    try (intros [= <-]; exact I).
  destruct (is_dir t q); [by intros [= <-]|].
  destruct (is_dir t (removelast q)); [done | by intros [= <-]].
Qed.

(** A write that fails has changed nothing, or has left the file empty
    because the text could not be encoded. *)
Lemma fs_write_raises (t t' : gmap Path node) p body e :
  fs_write t p body = (Raise e, t') ->
  os_error e /\
  (t' = t \/
   encodable body = false /\
   exists q, resolve t p = Some q /\ is_dir t q = false /\
     t' = <[q := File []]> t).
Proof.
  unfold fs_write. destruct (fs_open_w t p) as [[q t1]|e1] eqn:E.
  - destruct (encodable body) eqn:Henc; [done|]. intros [= <- <-].
    split; [done|]. right. split; [done|]. exists q.
    unfold fs_open_w, resolve in *. destruct (locate t p) as [q'| | |]; try done.
    destruct (is_dir t q') eqn:Hdir; [done|].
    destruct (is_dir t (removelast q')); [|done]. by simplify_eq.
  - intros [= <- <-]. split; [by eapply fs_open_w_raises | by left].
Qed.

(** A write that succeeds puts a regular file at the resolved path. *)
Lemma fs_write_ok (t t' : gmap Path node) p body u :
  fs_write t p body = (Ok u, t') ->
  encodable body = true /\
  exists q, resolve t p = Some q /\ is_dir t q = false /\
    t' = <[q := File body]> t.
Proof.
  unfold fs_write. destruct (fs_open_w t p) as [[q t1]|e1] eqn:E; [|done].
  destruct (encodable body) eqn:Henc; [|done]. intros [= <-].
  split; [done|]. exists q.
  unfold fs_open_w, resolve in *. destruct (locate t p) as [q'| | |]; try done.
  destruct (is_dir t q') eqn:Hdir; [done|].
  destruct (is_dir t (removelast q')); [|done]. simplify_eq.
  by rewrite insert_insert_eq.
Qed.

Lemma fs_write_text_write (t t' : gmap Path node) p body :
  fs_write_text t p body = Ok t' <-> fs_write t p body = (Ok tt, t').
Proof.
  unfold fs_write_text. destruct (fs_write t p body) as [[[]|e] t1].
  - split; by intros [= ->].
  - split; [done | by intros [= ->]].
Qed.

Lemma fs_logged_all w ms : fs (logged_all w ms) = fs w.
Proof. done. Qed.

Lemma requests_insert_fs w t : calls (World t (requests w)) = calls w.
Proof. done. Qed.

Section Handlers.

Variable lower : str -> str.
Variable llm : nat -> messages -> completion.
Variable app_dir : Path.

Lemma read_requirements_cases w :
  exists r, read_requirements app_dir w = (r, w).
Proof.
  unfold read_requirements, bind, path_exists, read_text, lift_fs.
  destruct (fs_refused (fs w) _); [by eexists|].
  destruct (fs_exists (fs w) _); by eexists.
Qed.

(** The handler, step by step. *)
Lemma generate_outcome request w :
  generate_design_system lower llm app_dir request w =
  match read_requirements app_dir w with
  | (Raise e, w0) => (Raise (generate_failed e), w0)
  | (Ok requirements, w0) =>
      match continuation_engine lower llm (generate_user_prompt request)
              (generate_system_prompt requirements) w0 with
      | (Raise e, w1) => (Raise (generate_failed e), w1)
      | (Ok cleaned, w1) =>
          let file_name :=
            derive_file_name lower (GenerateSystemRequest.name request) in
          match fs_write (fs w1)
                  (joinpath (systems_dir app_dir) file_name) cleaned with
          | (Raise e, t') =>
              (Raise (generate_failed e), World t' (requests w1))
          | (Ok _, t') =>
              (Ok (generate_response file_name cleaned),
               World t' (requests w1))
          end
      end
  end.
Proof.
  unfold generate_design_system, try_except, bind.
  destruct (read_requirements app_dir w) as [[requirements|e] w0]; [|done].
  destruct (continuation_engine _ _ _ _ w0) as [[cleaned|e] w1]; [|done].
  unfold write_text. by destruct (fs_write _ _ _) as [[[]|e] t'].
Qed.

End Handlers.

(** C2. When the completeness check never holds, the engine sends exactly
    six requests, the first and five continuations, and returns the
    accumulated text; the generate handler then answers with a success
    response that carries this text, provided the file can be written. The
    response has the fields [success], [fileName], [path] and [content], and
    no other. *)
Theorem budget_exhaustion_is_success
    (lower : str -> str) (llm : nat -> messages -> completion)
    (o : nat -> str) (w : world) :
  (forall k, k <= max_continuations ->
     is_html_complete lower (accumulated o k) = false) ->
  (forall user_prompt system_prompt,
     answers llm (length (calls w)) user_prompt system_prompt o max_continuations ->
     exists w1,
       continuation_engine lower llm user_prompt system_prompt w
       = (Ok (accumulated o max_continuations), w1) /\
       length (calls w1) = length (calls w) + (max_continuations + 1) /\
       fs w1 = fs w) /\
  (forall app_dir request requirements t',
     let file_name := derive_file_name lower (GenerateSystemRequest.name request) in
     read_requirements app_dir w = (Ok requirements, w) ->
     answers llm (length (calls w)) (generate_user_prompt request)
       (generate_system_prompt requirements) o max_continuations ->
     fs_write_text (fs w) (joinpath (systems_dir app_dir) file_name)
       (accumulated o max_continuations) = Ok t' ->
     exists w',
       generate_design_system lower llm app_dir request w
       = (Ok {| GenerateSystemResponse.success := true;
                GenerateSystemResponse.fileName := file_name;
                GenerateSystemResponse.path := py "/systems/" ++ file_name;
                GenerateSystemResponse.content := accumulated o max_continuations |},
          w') /\
       length (calls w') = length (calls w) + (max_continuations + 1) /\
       fs w' = t').
Proof.
  intros Hinc.
  assert (forall user_prompt system_prompt,
     answers llm (length (calls w)) user_prompt system_prompt o max_continuations ->
     continuation_engine lower llm user_prompt system_prompt w
     = (Ok (accumulated o max_continuations),
        logged_all w
          (build_messages user_prompt system_prompt ::
             ((fun i => continuation_messages (accumulated o i))
                <$> seq 0 max_continuations)))) as Hrun.
  { intros up sp Hans. apply continuation_engine_run; [done| |].
    - intros i Hi. unfold loop_test, engine_state.
      cbn [cleaned_html continuation_attempts].
      rewrite Hinc by lia. cbn [negb andb]. by apply Nat.ltb_lt.
    - unfold loop_test, engine_state. cbn [continuation_attempts].
      rewrite Nat.ltb_irrefl. apply andb_false_r. }
  split.
  - intros up sp Hans. eexists. split; [by apply Hrun|].
    split; [|done].
    count_requests.
  - intros app_dir request requirements t' file_name Hread Hans Hwrite.
    apply fs_write_text_write in Hwrite.
    eexists. rewrite generate_outcome, Hread, (Hrun _ _ Hans).
    cbv zeta. rewrite fs_logged_all. fold file_name. rewrite Hwrite.
    split; [reflexivity|]. rewrite requests_insert_fs. split; [|done].
    count_requests.
Qed.

(** On the endless provider the handler stores and returns six pieces. *)
Lemma budget_exhaustion_is_success_witness :
  exists w',
    generate_design_system ascii_lower endless_llm sample_dir
      (GenerateSystemRequest.Build (py "Deep Sea") (py "calm")) sample_world
    = (Ok {| GenerateSystemResponse.success := true;
             GenerateSystemResponse.fileName := py "deep-sea.html";
             GenerateSystemResponse.path := py "/systems/deep-sea.html";
             GenerateSystemResponse.content :=
               accumulated (fun _ => py "<p>more</p>") 5 |}, w') /\
    length (calls w') = 6.
Proof.
  destruct (budget_exhaustion_is_success ascii_lower endless_llm
              (fun _ => py "<p>more</p>") sample_world) as [_ H].
  - intros k Hk. unfold max_continuations in Hk.
    do 6 (destruct k as [|k]; [vm_compute; reflexivity|]). lia.
  - destruct (H sample_dir
                (GenerateSystemRequest.Build (py "Deep Sea") (py "calm")) []
                (<[sample_systems ++ [py "deep-sea.html"] :=
                     File (accumulated (fun _ => py "<p>more</p>") 5)]>
                   sample_fs))
      as (w' & Hrun & Hlen & _).
    + reflexivity.
    + split; reflexivity.
    + reflexivity.
    + exists w'. split; [exact Hrun | exact Hlen].
Defined.

(** C5. When a request of a generate call fails, whether the first or a
    continuation, the handler answers 500 with the provider's message and no
    document; the failed request is the last one sent; and the files are as
    they were before the call. *)
Theorem provider_failure_is_atomic
    (lower : str -> str) (llm : nat -> messages -> completion)
    (app_dir : Path) (request : GenerateSystemRequest.t)
    (w w' : world) (r : result GenerateSystemResponse.t)
    (i : nat) (m : messages) (message : str) :
  generate_design_system lower llm app_dir request w = (r, w') ->
  calls w' !! i = Some m -> length (calls w) <= i ->
  llm i m = Failure message ->
  r = Raise (HTTPException 500
               (py "Failed to generate design system: " ++ message)) /\
  S i = length (calls w') /\
  fs w' = fs w.
Proof.
  intros Hrun Hi Hle Hfail. rewrite generate_outcome in Hrun.
  destruct (read_requirements_cases app_dir w) as [[reqs|e] E];
    rewrite E in Hrun.
  2: { simplify_eq. apply lookup_lt_Some in Hi. lia. }
  destruct (continuation_engine _ _ _ _ w) as [[cleaned|e] w1] eqn:Heng.
  - apply provider_run_engine in Heng as [(_ & _ & H) _].
    assert (calls w' = calls w1) as Hcalls.
    { cbv zeta in Hrun. by destruct (fs_write _ _ _) as [[[]|?] ?]; simplify_eq. }
    rewrite Hcalls in Hi. specialize (H i m Hi Hle).
    rewrite Hfail in H. by destruct H as [_ [=]].
  - apply provider_run_engine in Heng as [(Hfs & _ & H) _]. simplify_eq.
    specialize (H i m Hi Hle). rewrite Hfail in H.
    destruct H as [Hlast [= ->]]. done.
Qed.

(** The second request of the sample run fails: 500, two requests, and the
    sample files as before. *)
Lemma provider_failure_is_atomic_witness :
  exists w',
    generate_design_system ascii_lower failing_llm sample_dir
      (GenerateSystemRequest.Build (py "Ocean") (py "calm")) sample_world
    = (Raise (HTTPException 500
                (py "Failed to generate design system: rate limit exceeded")),
       w') /\
    length (calls w') = 2 /\ fs w' = sample_fs.
Proof.
  destruct (generate_design_system ascii_lower failing_llm sample_dir
              (GenerateSystemRequest.Build (py "Ocean") (py "calm"))
              sample_world) as [r w'] eqn:Hrun.
  assert (exists m, calls w' !! 1 = Some m) as [m Hm].
  { apply (f_equal snd) in Hrun. cbn [snd] in Hrun. subst w'.
    eexists. vm_compute. reflexivity. }
  destruct (provider_failure_is_atomic ascii_lower failing_llm sample_dir
              (GenerateSystemRequest.Build (py "Ocean") (py "calm"))
              sample_world w' r 1 m (py "rate limit exceeded") Hrun Hm)
    as (-> & Hlen & Hfs).
  - simpl. lia.
  - reflexivity.
  - exists w'. split; [reflexivity|]. split; [by rewrite <- Hlen | exact Hfs].
Defined.

(** ** Deleting and editing *)

Lemma resolve_locate (t : gmap Path node) p q :
  resolve t p = Some q <-> locate t p = Found q.
Proof.
  unfold resolve. destruct (locate t p); split; intros; by simplify_eq.
Qed.

Lemma fs_refused_resolve (t : gmap Path node) p q :
  resolve t p = Some q -> fs_refused t p = false.
Proof. intros H%resolve_locate. unfold fs_refused. by rewrite H. Qed.

Lemma is_dir_delete_file (t : gmap Path node) q body x :
  t !! q = Some (File body) -> is_dir (delete q t) x = is_dir t x.
Proof.
  intros Hq. unfold is_dir. destruct x as [|c x]; [done|].
  destruct (decide (q = c :: x)) as [<-|Hne].
  - by rewrite lookup_delete_eq, Hq.
  - by rewrite lookup_delete_ne.
Qed.

Lemma walk_delete_file (t : gmap Path node) q body comps : forall cur,
  t !! q = Some (File body) -> walk (delete q t) cur comps = walk t cur comps.
Proof.
  induction comps as [|c comps IH]; intros cur Hq; [done|]. simpl.
  rewrite (is_dir_delete_file t q body) by done.
  destruct (is_dir t cur); [|done].
  case_bool_decide; [by apply IH|].
  destruct (NAME_MAX <? fs_bytes c)%N; [done | by apply IH].
Qed.

Lemma locate_delete_file (t : gmap Path node) q body p :
  t !! q = Some (File body) -> locate (delete q t) p = locate t p.
Proof.
  intros Hq. unfold locate. by rewrite (walk_delete_file t q body).
Qed.

Lemma resolve_delete_file (t : gmap Path node) q body p :
  t !! q = Some (File body) -> resolve (delete q t) p = resolve t p.
Proof. intros Hq. unfold resolve. by rewrite (locate_delete_file t q body). Qed.

Section Store.

Variable lower : str -> str.
Variable llm : nat -> messages -> completion.
Variable app_dir : Path.

(** The delete handler, step by step. *)
Lemma delete_outcome file_name w :
  delete_design_system app_dir file_name w =
  if rejected_name file_name then (Raise invalid_name, w)
  else
    let file_path := joinpath (systems_dir app_dir) file_name in
    if fs_refused (fs w) file_path then
      (Raise (delete_failed (lookup_error NameTooLong)), w)
    else if fs_exists (fs w) file_path then
      match fs_unlink (fs w) file_path with
      | Ok t' => (Ok {| DeleteResponse.success := true;
                        DeleteResponse.fileName := file_name |},
                  World t' (requests w))
      | Raise e => (Raise (delete_failed e), w)
      end
    else (Raise not_found, w).
Proof.
  unfold delete_design_system, try_except, rejected_name.
  destruct (_ || _ || _); [done|].
  unfold bind, path_exists, lift_fs. cbn [fs].
  destruct (fs_refused _ _); [done|].
  destruct (fs_exists _ _); [|done]. cbn [negb]. unfold unlink.
  destruct (fs_unlink _ _) as [t'|e] eqn:E; [done|].
  apply fs_unlink_raises in E. by destruct e.
Qed.

(** The edit handler, step by step. *)
Lemma edit_outcome request w :
  edit_design_system lower llm app_dir request w =
  let file_name := EditSystemRequest.fileName request in
  let file_path := joinpath (systems_dir app_dir) file_name in
  if fs_refused (fs w) file_path then
    (Raise (edit_failed (lookup_error NameTooLong)), w)
  else if fs_exists (fs w) file_path then
    match fs_read_text (fs w) file_path with
    | Raise e => (Raise (edit_failed e), w)
    | Ok existing_content =>
        match continuation_engine lower llm
                (edit_user_prompt existing_content
                   (EditSystemRequest.comment request))
                edit_system_prompt w with
        | (Raise e, w1) => (Raise (edit_failed e), w1)
        | (Ok cleaned, w1) =>
            match fs_write (fs w1) file_path cleaned with
            | (Raise e, t') =>
                (Raise (edit_failed e), World t' (requests w1))
            | (Ok _, t') =>
                (Ok {| EditSystemResponse.success := true;
                       EditSystemResponse.fileName := file_name;
                       EditSystemResponse.content := cleaned |},
                 World t' (requests w1))
            end
        end
    end
  else (Raise not_found, w).
Proof.
  unfold edit_design_system, try_except, bind, path_exists, read_text, lift_fs.
  cbn [fs].
  destruct (fs_refused _ _); [done|].
  destruct (fs_exists _ _); [|done]. cbn [negb].
  destruct (fs_read_text _ _) as [existing|e] eqn:Hread.
  2: { apply fs_read_text_raises in Hread. by destruct e. }
  destruct (continuation_engine _ _ _ _ w) as [[cleaned|e] w1] eqn:Heng.
  - unfold write_text.
    destruct (fs_write _ _ _) as [[[]|e] t'] eqn:Ew; [done|].
    apply fs_write_raises in Ew as [Ew _]. by destruct e.
  - apply provider_run_engine in Heng as [_ Hexn].
    by destruct (Hexn e eq_refl) as [m ->].
Qed.

(** Every [HTTPException] of an edit call other than the 404 of the
    existence test has status 500. *)
Lemma edit_outcome_status request w r w' status detail :
  edit_design_system lower llm app_dir request w = (r, w') ->
  r = Raise (HTTPException status detail) ->
  status = 500 \/
  status = 404 /\ r = Raise not_found /\ w' = w /\
  fs_refused (fs w)
    (joinpath (systems_dir app_dir) (EditSystemRequest.fileName request)) = false /\
  fs_exists (fs w)
    (joinpath (systems_dir app_dir) (EditSystemRequest.fileName request)) = false.
Proof.
  intros Hrun ->. rewrite edit_outcome in Hrun. cbv zeta in Hrun.
  unfold edit_failed in Hrun.
  destruct (fs_refused _ _); [left; by simplify_eq|].
  destruct (fs_exists _ _); [|right; by simplify_eq].
  left. destruct (fs_read_text _ _); [|by simplify_eq].
  destruct (continuation_engine _ _ _ _ _) as [[cleaned|e] w1];
    [|by simplify_eq].
  destruct (fs_write _ _ _) as [[[]|e] t']; by simplify_eq.
Qed.

End Store.

Lemma rejected_name_infix file_name :
  rejected_name file_name = true <->
  infix (py "/") file_name \/ infix (py "\") file_name \/
  infix (py "..") file_name.
Proof.
  unfold rejected_name. rewrite !orb_true_iff, !contains_infix. tauto.
Qed.

(** C8, as the code has it. A name with [/], [\] or [..] is answered 400
    before the files are looked at. Any other name is answered 404 when
    [exists()] reports that nothing is at its path; when a regular file is
    there, the file, and nothing else, is removed, the answer is a success
    with the same name, and afterwards the path does not exist, a read of
    it fails and a second delete is answered 404; when a directory is there
    (the name ["."] is the storage directory itself), the answer is 500 and
    nothing is removed; and when the system refuses the path, as it does
    for a name of more than 255 bytes, [exists()] raises, the answer is
    500 and nothing is removed. *)
Theorem delete_design_system_outcomes
    (app_dir : Path) (file_name : str) (w : world) :
  let file_path := joinpath (systems_dir app_dir) file_name in
  let named_safely :=
    ~ (infix (py "/") file_name \/ infix (py "\") file_name \/
       infix (py "..") file_name) in
  (infix (py "/") file_name \/ infix (py "\") file_name \/
   infix (py "..") file_name ->
     delete_design_system app_dir file_name w
     = (Raise (HTTPException 400 (py "Invalid file name")), w)) /\
  (named_safely ->
   fs_refused (fs w) file_path = false -> fs_exists (fs w) file_path = false ->
     delete_design_system app_dir file_name w
     = (Raise (HTTPException 404 (py "Design system file not found")), w)) /\
  (named_safely ->
   forall body, file_at (fs w) file_path body ->
     exists q w',
       delete_design_system app_dir file_name w
       = (Ok {| DeleteResponse.success := true;
                DeleteResponse.fileName := file_name |}, w') /\
       fs w !! q = Some (File body) /\
       fs w' = delete q (fs w) /\
       calls w' = calls w /\
       fs_exists (fs w') file_path = false /\
       (exists e, fs_read_text (fs w') file_path = Raise e) /\
       delete_design_system app_dir file_name w'
       = (Raise (HTTPException 404 (py "Design system file not found")), w')) /\
  (named_safely -> dir_at (fs w) file_path ->
     exists e,
       delete_design_system app_dir file_name w
       = (Raise (HTTPException 500
                   (py "Failed to delete design system: " ++ exn_str e)), w)) /\
  (named_safely -> fs_refused (fs w) file_path = true ->
     exists e,
       delete_design_system app_dir file_name w
       = (Raise (HTTPException 500
                   (py "Failed to delete design system: " ++ exn_str e)), w)) /\
  delete_design_system app_dir (py "../../etc/passwd") w
  = (Raise (HTTPException 400 (py "Invalid file name")), w) /\
  delete_design_system app_dir (py "a/b.html") w
  = (Raise (HTTPException 400 (py "Invalid file name")), w).
Proof.
  intros file_path named_safely.
  assert (named_safely -> rejected_name file_name = false) as Hsafe.
  { intros H. apply not_true_is_false. by rewrite rejected_name_infix. }
  split; [|split; [|split; [|split; [|split; [|split]]]]].
  - intros H%rejected_name_infix. by rewrite delete_outcome, H.
  - intros H%Hsafe Hacc Hex. rewrite delete_outcome, H. cbv zeta.
    fold file_path. by rewrite Hacc, Hex.
  - intros H%Hsafe body (q & Hq & Hdir & Hfile).
    pose proof (fs_refused_resolve _ _ _ Hq) as Hacc.
    pose proof (proj1 (resolve_locate _ _ _) Hq) as Hloc.
    assert (locate (delete q (fs w)) file_path = Found q) as Hloc'
      by (by rewrite (locate_delete_file _ _ body)).
    assert (fs_exists (delete q (fs w)) file_path = false) as Hgone.
    { unfold fs_exists, resolve.
      rewrite Hloc', (is_dir_delete_file _ _ body), Hdir by done.
      rewrite lookup_delete_eq. cbn [orb]. apply bool_decide_eq_false.
      by intros [? ?]. }
    exists q, (World (delete q (fs w)) (requests w)).
    rewrite !delete_outcome, H. cbv zeta. fold file_path. cbn [fs].
    rewrite Hacc, Hgone. unfold fs_exists, fs_unlink, fs_read_text, fs_refused, resolve.
    rewrite Hloc, Hloc', Hdir, Hfile, (is_dir_delete_file _ _ body), Hdir by done.
    rewrite lookup_delete_eq. cbn [orb].
    rewrite bool_decide_eq_true_2 by (by eexists).
    split; [done|]. split; [done|]. split; [done|]. split; [done|].
    split; [done|]. split; [by eexists | done].
  - intros H%Hsafe (q & Hq & Hdir).
    pose proof (fs_refused_resolve _ _ _ Hq) as Hacc.
    pose proof (proj1 (resolve_locate _ _ _) Hq) as Hloc.
    rewrite delete_outcome, H. cbv zeta. fold file_path. rewrite Hacc.
    unfold fs_exists, fs_unlink. rewrite Hq, Hloc, Hdir. cbn [orb].
    by eexists.
  - intros H%Hsafe Hacc. rewrite delete_outcome, H. cbv zeta.
    fold file_path. rewrite Hacc. by eexists.
  - by rewrite delete_outcome.
  - by rewrite delete_outcome.
Qed.

(** The stored sample document is deleted, and afterwards nothing is at its
    path; a name of 300 letters, which names no file, is answered 500. *)
Lemma delete_design_system_outcomes_witness :
  (exists w',
     delete_design_system sample_dir (py "ocean.html") sample_world
     = (Ok {| DeleteResponse.success := true;
              DeleteResponse.fileName := py "ocean.html" |}, w') /\
     fs_exists (fs w') (joinpath (systems_dir sample_dir) (py "ocean.html"))
     = false) /\
  sample_fs !! (sample_systems ++ [long_name]) = None /\
  exists e,
    delete_design_system sample_dir long_name sample_world
    = (Raise (HTTPException 500
                (py "Failed to delete design system: " ++ exn_str e)),
       sample_world).
Proof.
  split.
  - destruct (delete_design_system_outcomes sample_dir (py "ocean.html")
                sample_world) as (_ & _ & H & _).
    destruct (H ltac:(rewrite <- rejected_name_infix; vm_compute; discriminate)
                (py "<html><body></body></html>"))
      as (q & w' & Hrun & _ & _ & _ & Hgone & _).
    + exists (sample_systems ++ [py "ocean.html"]).
      split; [vm_compute; reflexivity|]. split; [vm_compute; reflexivity|].
      reflexivity.
    + exists w'. split; [exact Hrun | exact Hgone].
  - split; [reflexivity|].
    destruct (delete_design_system_outcomes sample_dir long_name sample_world)
      as (_ & _ & _ & _ & H & _).
    apply H.
    + rewrite <- rejected_name_infix. vm_compute. discriminate.
    + vm_compute. reflexivity.
Defined.

(** C8 as stated fails for a name that passes the test and denotes a
    directory: ["."] is the storage directory itself, so the path exists,
    nothing is removed, and the answer is neither 404 nor a success. *)
Lemma delete_design_system_directory_name :
  rejected_name (py ".") = false /\
  fs_exists sample_fs (joinpath (systems_dir sample_dir) (py ".")) = true /\
  (forall body,
     fs_read_text sample_fs (joinpath (systems_dir sample_dir) (py "."))
     <> Ok body) /\
  exists detail,
    delete_design_system sample_dir (py ".") sample_world
    = (Raise (HTTPException 500 detail), sample_world).
Proof.
  split; [reflexivity|]. split; [reflexivity|].
  split; [intros body; discriminate|]. eexists. reflexivity.
Qed.

(** C9, as the code has it. An edit is answered 404 exactly when
    [exists()] reports that nothing is at the path of its file name; the
    test comes first, so on 404 no request was sent and no file was changed.
    When the system refuses the path, as it does for a name of more than 255
    bytes, [exists()] raises and the answer is 500; when the path is a
    directory the read fails and the answer is 500; in both cases, too,
    nothing was sent or changed. No file name, whatever it contains, is
    answered 400. *)
Theorem edit_design_system_errors
    (lower : str -> str) (llm : nat -> messages -> completion)
    (app_dir : Path) (request : EditSystemRequest.t)
    (w w' : world) (r : result EditSystemResponse.t) :
  edit_design_system lower llm app_dir request w = (r, w') ->
  let file_path :=
    joinpath (systems_dir app_dir) (EditSystemRequest.fileName request) in
  ((exists detail, r = Raise (HTTPException 404 detail)) <->
   fs_refused (fs w) file_path = false /\ fs_exists (fs w) file_path = false) /\
  (fs_refused (fs w) file_path = false -> fs_exists (fs w) file_path = false ->
   r = Raise (HTTPException 404 (py "Design system file not found")) /\
   w' = w) /\
  (fs_refused (fs w) file_path = true \/ dir_at (fs w) file_path ->
   (exists cause,
      r = Raise (HTTPException 500
                   (py "Failed to edit design system: " ++ cause))) /\
   w' = w) /\
  (forall detail, r <> Raise (HTTPException 400 detail)).
Proof.
  intros Hrun file_path.
  assert (forall status detail,
            r = Raise (HTTPException status detail) ->
            status = 500 \/
            status = 404 /\ fs_refused (fs w) file_path = false /\
            fs_exists (fs w) file_path = false) as Hstatus.
  { intros status detail Hr.
    destruct (edit_outcome_status _ _ _ _ _ _ _ _ _ Hrun Hr)
      as [?|(? & _ & _ & ? & ?)]; auto. }
  rewrite edit_outcome in Hrun. cbv zeta in Hrun. fold file_path in Hrun.
  split; [|split; [|split]].
  - split.
    + intros [detail Hr]. by destruct (Hstatus _ _ Hr) as [?|(_ & ? & ?)].
    + intros [Hacc Hex]. rewrite Hacc, Hex in Hrun. simplify_eq. by eexists.
  - intros Hacc Hex. rewrite Hacc, Hex in Hrun. by simplify_eq.
  - intros [Hacc | (q & Hq & Hdir)].
    + rewrite Hacc in Hrun. unfold edit_failed in Hrun. simplify_eq.
      split; [by eexists | done].
    + rewrite (fs_refused_resolve _ _ _ Hq) in Hrun.
      unfold fs_exists, fs_read_text in Hrun.
      rewrite Hq, (proj1 (resolve_locate _ _ _) Hq), Hdir in Hrun.
      cbn [orb] in Hrun. unfold edit_failed in Hrun. simplify_eq.
      split; [by eexists | done].
  - intros detail Hr. destruct (Hstatus _ _ Hr) as [?|[? _]]; done.
Qed.

(** A file name that climbs out of the storage directory is looked up like
    any other: here nothing is found, so the answer is 404. *)
Lemma edit_design_system_errors_witness :
  edit_design_system ascii_lower whole_llm sample_dir
    (EditSystemRequest.Build (py "../../../etc/passwd") (py "darker"))
    sample_world
  = (Raise (HTTPException 404 (py "Design system file not found")),
     sample_world).
Proof.
  destruct (edit_design_system ascii_lower whole_llm sample_dir
              (EditSystemRequest.Build (py "../../../etc/passwd") (py "darker"))
              sample_world) as [r w'] eqn:Hrun.
  destruct (edit_design_system_errors _ _ _ _ _ _ _ Hrun) as (_ & H & _).
  destruct H as [-> ->];
    [vm_compute; reflexivity | vm_compute; reflexivity | reflexivity].
Defined.

(** C9 as stated fails in two ways. A file name of 300 letters names no
    file, yet the answer is 500, not 404: [exists()] raises the error of the
    system. And under the name ["."] no file is found, the path being the
    storage directory, and the answer is 500 as well. *)
Lemma edit_design_system_absent_not_404 :
  sample_fs !! (sample_systems ++ [long_name]) = None /\
  (exists detail,
     edit_design_system ascii_lower whole_llm sample_dir
       (EditSystemRequest.Build long_name (py "darker")) sample_world
     = (Raise (HTTPException 500 detail), sample_world)) /\
  (forall body,
     fs_read_text sample_fs (joinpath (systems_dir sample_dir) (py "."))
     <> Ok body) /\
  exists detail,
    edit_design_system ascii_lower whole_llm sample_dir
      (EditSystemRequest.Build (py ".") (py "darker")) sample_world
    = (Raise (HTTPException 500 detail), sample_world).
Proof.
  split; [reflexivity|]. split; [eexists; reflexivity|].
  split; [intros body; discriminate | eexists; reflexivity].
Qed.

(** ** File names *)

Lemma replace_cons o old new c s :
  replace (o :: old) new (c :: s) =
  if startswith (c :: s) (o :: old)
  then new ++ replace (o :: old) new (drop (length old) s)
  else c :: replace (o :: old) new s.
Proof.
  simp replace. by destruct (startswith (c :: s) (o :: old)).
Qed.

Lemma replace_char a b s :
  replace [a] [b] s = (fun c => if N.eqb c a then b else c) <$> s.
Proof.
  induction s as [|c s IH]; [by simp replace|].
  rewrite replace_cons, fmap_cons, <- IH. cbn [startswith length drop].
  rewrite andb_true_r. by destruct (N.eqb c a).
Qed.

(** The file name of a display name: its lower-cased form with every space
    turned into a hyphen, and the suffix. *)
Lemma derive_file_name_spec (lower : str -> str) name :
  derive_file_name lower name
  = ((fun c => if N.eqb c space then hyphen else c) <$> lower name)
    ++ py ".html".
Proof. unfold derive_file_name. by rewrite (replace_char space hyphen). Qed.

Lemma split_on_no_sep sep s : sep ∉ s -> split_on sep s = [s].
Proof.
  induction s as [|c s IH]; [done|].
  intros [Hc Hs]%not_elem_of_cons. simpl.
  destruct (N.eqb_spec c sep) as [->|_]; [done|]. by rewrite IH.
Qed.

(** A file name without a slash is one component: the file sits in the
    storage directory itself. *)
Lemma joinpath_flat (lower : str -> str) (app_dir : Path) name :
  slash ∉ lower name ->
  joinpath (systems_dir app_dir) (derive_file_name lower name)
  = systems_dir app_dir ++ [derive_file_name lower name].
Proof.
  intros Hname. rewrite derive_file_name_spec.
  set (stem := (fun c => if N.eqb c space then hyphen else c) <$> lower name).
  assert (slash ∉ stem ++ py ".html") as Hslash.
  { rewrite not_elem_of_app. split.
    - unfold stem. rewrite list_elem_of_fmap. intros (c & Hc & Hin).
      destruct (N.eqb c space); [done|]. by subst.
    - apply (bool_decide_unpack _). by vm_compute. }
  unfold joinpath.
  assert (startswith (stem ++ py ".html") [slash] = false) as ->.
  { apply not_true_is_false. intros [k Hk]%startswith_prefix.
    apply Hslash. rewrite Hk. by left. }
  unfold parts. rewrite split_on_no_sep by done.
  rewrite filter_cons_True; [done|]. split.
  - by destruct stem.
  - intros H%(f_equal length). rewrite length_app in H. simpl in H. lia.
Qed.

(** C10 at display names with a slash. The derived file name keeps the
    slash, so the path leaves the storage directory: for ["../Ocean"] the
    handler answers with a success and the document is stored next to the
    storage directory, not in it; for ["a/b"] the path needs a folder that
    does not exist, the answer is 500 and nothing is stored. The delete
    handler rejects such names. *)
Theorem generate_design_system_outside_systems_dir :
  let document := py "<html><body></body></html>" in
  (exists w',
     generate_design_system ascii_lower whole_llm sample_dir
       (GenerateSystemRequest.Build (py "../Ocean") (py "calm")) sample_world
     = (Ok {| GenerateSystemResponse.success := true;
              GenerateSystemResponse.fileName := py "../ocean.html";
              GenerateSystemResponse.path := py "/systems/../ocean.html";
              GenerateSystemResponse.content := document |}, w') /\
     fs w' = <[sample_dir ++ [py "public"; py "ocean.html"] := File document]>
               sample_fs /\
     forall name,
       fs w' !! (sample_systems ++ [name]) = sample_fs !! (sample_systems ++ [name])) /\
  (exists detail w',
     generate_design_system ascii_lower whole_llm sample_dir
       (GenerateSystemRequest.Build (py "a/b") (py "calm")) sample_world
     = (Raise (HTTPException 500 detail), w') /\
     fs w' = sample_fs) /\
  rejected_name (py "../ocean.html") = true /\
  rejected_name (py "a/b.html") = true.
Proof.
  intros document.
  set (run1 := generate_design_system ascii_lower whole_llm sample_dir
                 (GenerateSystemRequest.Build (py "../Ocean") (py "calm"))
                 sample_world).
  set (run2 := generate_design_system ascii_lower whole_llm sample_dir
                 (GenerateSystemRequest.Build (py "a/b") (py "calm"))
                 sample_world).
  assert (fs (snd run1)
          = <[sample_dir ++ [py "public"; py "ocean.html"] := File document]>
              sample_fs) as Hfs1 by reflexivity.
  split; [|split; [|split; reflexivity]].
  - exists (snd run1). split; [|split; [done|]].
    + rewrite (surjective_pairing run1) at 1. f_equal.
    + intros name. by rewrite Hfs1, lookup_insert_ne.
  - eexists. exists (snd run2). split.
    + rewrite (surjective_pairing run2) at 1. f_equal.
    + reflexivity.
Qed.

(** ** Sample runs *)

Example is_html_complete_mixed_case :
  is_html_complete ascii_lower (py "<HTML><BODY>x</BODY></HTML>  ") = true.
Proof. reflexivity. Qed.

Example is_html_complete_root_tag_in_the_middle :
  is_html_complete ascii_lower (py "<html></html><body></body>") = false.
Proof. reflexivity. Qed.

Example is_html_complete_cut_off :
  is_html_complete ascii_lower (py "<html><body><p>Ocean</") = false.
Proof. reflexivity. Qed.

Example clean_html_tagged_fence :
  clean_html (fence_html ++ nl :: py "<p>x</p>" ++ nl :: fence) = py "<p>x</p>".
Proof. reflexivity. Qed.

Example derive_file_name_ocean :
  derive_file_name ascii_lower (py "Deep Blue Sea") = py "deep-blue-sea.html".
Proof. reflexivity. Qed.

(** The end-to-end scenario: two requests, and [ocean.html] holds the joined
    text. *)
Example generate_ocean :
  exists w',
    generate_design_system ascii_lower two_part_llm sample_dir
      (GenerateSystemRequest.Build (py "Ocean") (py "calm")) sample_world
    = (Ok {| GenerateSystemResponse.success := true;
             GenerateSystemResponse.fileName := py "ocean.html";
             GenerateSystemResponse.path := py "/systems/ocean.html";
             GenerateSystemResponse.content :=
               py "<html><body><p>Ocean</" ++ nl :: py "p></body></html>" |},
       w') /\
    length (calls w') = 2 /\
    fs w' !! (sample_systems ++ [py "ocean.html"])
    = Some (File (py "<html><body><p>Ocean</" ++ nl :: py "p></body></html>")).
Proof.
  set (run := generate_design_system ascii_lower two_part_llm sample_dir
                (GenerateSystemRequest.Build (py "Ocean") (py "calm"))
                sample_world).
  exists (snd run). split; [|split; reflexivity].
  rewrite (surjective_pairing run) at 1. f_equal.
Qed.

(** * Further properties of the helpers and handlers *)

(** ** The continuation context *)

(** X1. The continuation context is a tail of the text: its last [chars]
    characters, or the whole text when that is shorter. A window of 0 also
    gives the whole text, since the slice [html[-0:]] starts at 0. *)
Theorem get_continuation_context_is_tail (html : str) (chars : nat) :
  get_continuation_context html chars `suffix_of` html /\
  length (get_continuation_context html chars)
  = (if chars =? 0 then length html else chars `min` length html).
Proof.
  unfold get_continuation_context, last_chars.
  destruct (Nat.ltb_spec chars (length html)) as [Hlt|Hge].
  - destruct chars as [|n]; [by split|]. split; [apply suffix_drop|].
    rewrite length_drop. cbn [Nat.eqb]. lia.
  - split; [done|]. destruct chars; cbn [Nat.eqb]; lia.
Qed.

(** ** More on the text normalizer *)

Lemma removes_sublist lit s out : removes lit s out -> out `sublist_of` s.
Proof.
  induction 1 as [|c s out _ IH|s out _ IH|s out _ IH].
  - constructor.
  - by constructor.
  - by apply sublist_inserts_l.
  - apply sublist_inserts_l. by constructor.
Qed.

Lemma strip_sublist s : strip s `sublist_of` s.
Proof.
  unfold strip. destruct (rstrip_prefix (lstrip s)) as [k Hk].
  destruct (lstrip_suffix s) as [j Hj]. rewrite Hj at 2. rewrite Hk at 2.
  by apply sublist_inserts_l, sublist_inserts_r.
Qed.

Lemma clean_html_sublist s : clean_html s `sublist_of` s.
Proof.
  destruct (clean_html_cases s) as (out & -> & _ & Hcase).
  etrans; [apply strip_sublist|].
  destruct Hcase as [(_ & mid & H1 & H2) | [(_ & _ & H) | (_ & ->)]].
  - etrans; by eapply removes_sublist.
  - by eapply removes_sublist.
  - done.
Qed.

(** X2. [clean_html] only deletes characters: its result is the input with
    some characters left out, in the same order, so it is never longer. *)
Theorem clean_html_only_deletes (s : str) :
  clean_html s `sublist_of` s /\ length (clean_html s) <= length s.
Proof.
  assert (clean_html s `sublist_of` s) as H; [|split; [done|by apply sublist_length]].
  destruct (clean_html_cases s) as (out & -> & _ & Hcase).
  etrans; [apply strip_sublist|].
  destruct Hcase as [(_ & mid & H1 & H2) | [(_ & _ & H) | (_ & ->)]].
  - etrans; by eapply removes_sublist.
  - by eapply removes_sublist.
  - done.
Qed.

Lemma lstrip_spaces s : Forall (fun c => isspace c = true) s -> lstrip s = [].
Proof. induction 1 as [|c s Hc _ IH]; [done|]. simpl. by rewrite Hc. Qed.

Lemma startswith_backtick c s lit :
  c <> backtick -> startswith (c :: s) (backtick :: lit) = false.
Proof. intros H. cbn [startswith]. by destruct (N.eqb_spec c backtick). Qed.

Lemma contains_skip_unticked y r lit :
  backtick ∉ y -> contains (y ++ r) (backtick :: lit) = contains r (backtick :: lit).
Proof.
  induction y as [|c y IH]; [done|]. intros [Hc Hy]%not_elem_of_cons.
  cbn [app contains]. rewrite startswith_backtick by done. by apply IH.
Qed.

Lemma contains_fence_spaces s :
  Forall (fun c => isspace c = true) s -> contains s fence = false.
Proof.
  induction 1 as [|c s Hc _ IH]; [done|].
  cbn [contains]. rewrite fence_cons, startswith_backtick; [done|].
  by intros ->.
Qed.

(** X3. The result of [clean_html] is trimmed: trimming it again changes
    nothing, it neither starts nor ends with a white-space character, and
    an input of white space only gives the empty string. *)
Theorem clean_html_is_trimmed (s : str) :
  strip (clean_html s) = clean_html s /\
  (forall c r, clean_html s = c :: r -> isspace c = false) /\
  (forall r c, clean_html s = r ++ [c] -> isspace c = false) /\
  (Forall (fun c => isspace c = true) s -> clean_html s = []).
Proof.
  destruct (clean_html_cases s) as (out & Hout & _).
  split; [|split; [|split]].
  - rewrite Hout. apply strip_idemp.
  - rewrite Hout. unfold strip. intros c r H.
    destruct (rstrip_prefix (lstrip out)) as [k Hk]. rewrite H in Hk.
    by apply (lstrip_head out c (r ++ k)).
  - rewrite Hout. intros r c H. apply not_true_is_false. intros Hc.
    apply (strip_ends_unspaced out r c Hc). rewrite H. done.
  - intros Hs. rewrite clean_html_unfenced.
    + unfold strip. by rewrite lstrip_spaces.
    + by apply contains_fence_spaces.
Qed.

Lemma re_sub_fence_skip_unticked y r :
  backtick ∉ y -> re_sub_opt_nl fence (y ++ r) = y ++ re_sub_opt_nl fence r.
Proof.
  induction y as [|c y IH]; [done|]. intros [Hc Hy]%not_elem_of_cons.
  cbn [app]. rewrite re_sub_fence_cons.
  destruct (N.eqb_spec c backtick) as [?|_]; [done|]. cbn [andb].
  by rewrite IH.
Qed.

Lemma strip_re_sub_fence_skip_opt s :
  strip (re_sub_opt_nl fence (skip_opt nl s)) = strip (re_sub_opt_nl fence s).
Proof.
  destruct s as [|c s]; [done|]. cbn [skip_opt].
  destruct (N.eqb_spec c nl) as [->|Hc]; [|done].
  rewrite (re_sub_fence_cons nl s). cbn [N.eqb nl backtick Pos.eqb andb].
  done.
Qed.

Lemma startswith_html_tag tag r :
  startswith (tag ++ nl :: r) (py "html") = true -> py "html" `prefix_of` tag.
Proof.
  intros [k Hk]%startswith_prefix.
  destruct tag as [|a [|b [|c [|d tag]]]]; simplify_eq/=.
  by exists tag.
Qed.

(** X4. Only the tag [html], in lower case, is taken off a fence. A text
    without markers in a fence with another tag, free of backticks and not
    starting with [html], comes back with the tag in front of it. *)
Theorem clean_html_keeps_other_tag (tag t : str) :
  backtick ∉ tag -> ~ py "html" `prefix_of` tag -> ~ infix fence t ->
  clean_html (fence ++ tag ++ [nl] ++ t ++ [nl] ++ fence)
  = strip (tag ++ [nl] ++ t).
Proof.
  intros Htick Htag Ht%contains_false_infix.
  set (rest := tag ++ nl :: t ++ nl :: fence).
  change (fence ++ tag ++ [nl] ++ t ++ [nl] ++ fence)
    with (backtick :: backtick :: backtick :: rest).
  assert (startswith rest [backtick] = false) as Hhead.
  { unfold rest. destruct tag as [|c tag]; [done|].
    apply not_elem_of_cons in Htick as [Hc _].
    cbn [app startswith]. by destruct (N.eqb_spec c backtick). }
  assert (contains rest fence_html = false) as Hrest.
  { unfold rest. rewrite (contains_skip_unticked tag _ (py "``html")) by done.
    cbn [contains]. rewrite orb_false_iff. split; [done|].
    by apply contains_fence_html_closing. }
  assert (contains (backtick :: backtick :: backtick :: rest) fence_html = false)
    as Hnone.
  { cbn [contains]. rewrite Hrest, !orb_false_r.
    change (startswith (backtick :: backtick :: backtick :: rest) fence_html)
      with (startswith rest (py "html")).
    change (startswith (backtick :: backtick :: rest) fence_html)
      with (startswith rest (backtick :: py "html")).
    change (startswith (backtick :: rest) fence_html)
      with (startswith rest (backtick :: backtick :: py "html")).
    assert (forall lit, startswith rest (backtick :: lit) = false) as Hb.
    { intros lit. destruct rest as [|c rest']; [done|].
      cbn [startswith] in *. rewrite andb_true_r in Hhead. by rewrite Hhead. }
    rewrite !Hb, !orb_false_r. apply not_true_is_false.
    by intros H%startswith_html_tag. }
  unfold clean_html. rewrite Hnone.
  assert (contains (backtick :: backtick :: backtick :: rest) fence = true) as ->.
  { apply contains_infix. by exists [], rest. }
  rewrite re_sub_fence_cons.
  change (N.eqb backtick backtick &&
          startswith (backtick :: backtick :: rest) [backtick; backtick])
    with true.
  cbv iota. change (drop 2 (backtick :: backtick :: rest)) with rest.
  rewrite strip_re_sub_fence_skip_opt. unfold rest.
  rewrite re_sub_fence_skip_unticked by done.
  rewrite (re_sub_fence_cons nl). cbn [N.eqb nl backtick Pos.eqb andb].
  rewrite re_sub_fence_closing by done.
  replace (tag ++ nl :: t ++ [nl]) with ((tag ++ [nl] ++ t) ++ [nl])
    by (by rewrite <- !(assoc_L (++))).
  by apply strip_snoc_space.
Qed.

(** A style sheet in a fence tagged [css], and a document in a fence tagged
    [HTML] in capitals: the tags stay. *)
Lemma clean_html_keeps_other_tag_witness :
  clean_html (fence ++ py "css" ++ [nl] ++ py "body{}" ++ [nl] ++ fence)
  = py "css" ++ nl :: py "body{}" /\
  clean_html (fence ++ py "HTML" ++ [nl] ++ py "<html></html>" ++ [nl] ++ fence)
  = py "HTML" ++ nl :: py "<html></html>".
Proof.
  split.
  - rewrite (clean_html_keeps_other_tag (py "css") (py "body{}")).
    + reflexivity.
    + apply (bool_decide_unpack _). by vm_compute.
    + intros [k Hk]. discriminate.
    + apply contains_false_infix. reflexivity.
  - rewrite (clean_html_keeps_other_tag (py "HTML") (py "<html></html>")).
    + reflexivity.
    + apply (bool_decide_unpack _). by vm_compute.
    + intros [k Hk]. discriminate.
    + apply contains_false_infix. reflexivity.
Defined.

(** ** More on the continuation engine *)

Lemma loop_reach_prefix lower llm st0 w0 st w :
  loop_reach lower llm st0 w0 st w ->
  cleaned_html st0 `prefix_of` cleaned_html st.
Proof.
  induction 1 as [|st w c w' _ IH _ _]; [done|].
  cbn [loop_append cleaned_html]. by apply prefix_app_r.
Qed.

(** X5. Whatever the provider answers, a run of the engine sends at least
    one and at most six requests and touches no file. A text it returns
    starts with the cleaned first answer, and it is returned incomplete only
    after all six requests. *)
Theorem continuation_engine_request_bounds
    (lower : str -> str) (llm : nat -> messages -> completion)
    (user_prompt system_prompt : str) (w w' : world) (r : result str) :
  continuation_engine lower llm user_prompt system_prompt w = (r, w') ->
  length (calls w) + 1 <= length (calls w') /\
  length (calls w') <= length (calls w) + 6 /\
  fs w' = fs w /\
  forall text, r = Ok text ->
    (is_html_complete lower text = false ->
     length (calls w') = length (calls w) + 6) /\
    exists first,
      llm (length (calls w)) (build_messages user_prompt system_prompt)
      = Completion first /\
      clean_html first `prefix_of` text.
Proof.
  unfold continuation_engine, bind. intros Hrun.
  destruct (call_llm_cases llm user_prompt system_prompt w) as
    [(c & Hc & E) | (e & He & E)]; rewrite E in Hrun.
  2: { simplify_eq. rewrite calls_logged, length_app.
       simpl length. split; [lia|]. split; [lia|]. done. }
  set (st0 := {| cleaned_html := clean_html c; continuation_attempts := 0 |})
    in Hrun.
  set (w1 := logged w (build_messages user_prompt system_prompt)) in *.
  assert (length (calls w1) = length (calls w) + 1) as Hw1
    by (unfold w1; rewrite calls_logged, length_app; cbn [length]; lia).
  destruct (while_loop lower llm st0 w1) as [r2 w2] eqn:Hloop.
  destruct (while_loop_bounded lower llm st0 w1 _ st0 w1 r2 w2
              (Nat.le_refl _) (reach_start _ _ _ _) Hloop) as [Hlen Hfin].
  destruct (provider_run_loop lower llm _ st0 w1 r2 w2 (Nat.le_refl _) Hloop)
    as [(Hfs & Hpre & _) _].
  apply prefix_length in Hpre.
  assert (w' = w2) as -> by (destruct r2; unfold ret in Hrun; by simplify_eq).
  unfold max_continuations in Hlen. cbn [continuation_attempts st0] in Hlen.
  split; [lia|]. split; [lia|]. split; [by rewrite Hfs|].
  intros text ->. destruct r2 as [st|e]; [|done].
  unfold ret in Hrun. injection Hrun as <-.
  destruct (Hfin st eq_refl) as [Hreach Htest].
  destruct (loop_reach_invariant lower llm st0 w1 st w2 eq_refl Hreach)
    as (_ & Hmax & Hcount).
  split.
  - intros Hinc. unfold loop_test in Htest. rewrite Hinc in Htest.
    cbn [negb andb] in Htest. apply Nat.ltb_ge in Htest.
    unfold max_continuations in *. lia.
  - exists c. split; [done|]. by apply (loop_reach_prefix _ _ _ _ _ _ Hreach).
Qed.

(** On the endless provider the engine returns an incomplete text after six
    requests. *)
Lemma continuation_engine_request_bounds_witness :
  exists w',
    continuation_engine ascii_lower endless_llm (py "ocean") [] sample_world
    = (Ok (accumulated (fun _ => py "<p>more</p>") 5), w') /\
    length (calls w') = 6.
Proof.
  set (run := continuation_engine ascii_lower endless_llm (py "ocean") []
                sample_world).
  assert (run = (Ok (accumulated (fun _ => py "<p>more</p>") 5), snd run))
    as Hrun by (rewrite (surjective_pairing run) at 1; f_equal).
  exists (snd run). split; [exact Hrun|].
  destruct (continuation_engine_request_bounds _ _ _ _ _ _ _ Hrun)
    as (_ & _ & _ & H).
  destruct (H _ eq_refl) as [Hsix _]. apply Hsix. reflexivity.
Defined.

(** ** Stored documents *)

Lemma is_dir_insert_file (t : gmap Path node) q body x :
  is_dir t q = false -> is_dir (<[q := File body]> t) x = is_dir t x.
Proof.
  intros Hq. unfold is_dir in *. destruct x as [|c x]; [done|].
  destruct (decide (q = c :: x)) as [->|Hne].
  - rewrite lookup_insert_eq. by destruct (t !! (c :: x)) as [[]|].
  - by rewrite lookup_insert_ne.
Qed.

Lemma walk_insert_file (t : gmap Path node) q body comps : forall cur,
  is_dir t q = false ->
  walk (<[q := File body]> t) cur comps = walk t cur comps.
Proof.
  induction comps as [|c comps IH]; intros cur Hq; [done|]. simpl.
  rewrite is_dir_insert_file by done.
  destruct (is_dir t cur); [|done].
  case_bool_decide; [by apply IH|].
  destruct (NAME_MAX <? fs_bytes c)%N; [done | by apply IH].
Qed.

Lemma locate_insert_file (t : gmap Path node) q body p :
  is_dir t q = false -> locate (<[q := File body]> t) p = locate t p.
Proof. intros Hq. unfold locate. by rewrite walk_insert_file. Qed.

(** Without a carriage return a text is read as it is. *)
Lemma universal_newlines_id s : cr ∉ s -> universal_newlines s = s.
Proof.
  induction s as [|c s IH]; [done|]. intros [Hc Hs]%not_elem_of_cons.
  simpl. destruct (N.eqb_spec c cr) as [?|_]; [done|]. by rewrite IH.
Qed.

(** After a write the path leads to a regular file with the text, and a
    read gives the text with universal newlines. *)
Lemma fs_read_after_write (t : gmap Path node) p q body :
  resolve t p = Some q -> is_dir t q = false ->
  file_at (<[q := File body]> t) p body /\
  fs_read_text (<[q := File body]> t) p = Ok (universal_newlines body) /\
  fs_exists (<[q := File body]> t) p = true /\
  fs_refused (<[q := File body]> t) p = false.
Proof.
  intros Hres Hq. pose proof (proj1 (resolve_locate _ _ _) Hres) as Hloc.
  unfold file_at, fs_read_text, fs_exists, fs_refused, resolve.
  rewrite locate_insert_file, Hloc, is_dir_insert_file, Hq, lookup_insert_eq
    by done.
  split.
  { exists q. by rewrite is_dir_insert_file, Hq, lookup_insert_eq. }
  split; [done|]. split; [|done].
  cbn [orb]. by apply bool_decide_eq_true_2.
Qed.

Lemma encodable_sublist s u :
  s `sublist_of` u -> encodable u = true -> encodable s = true.
Proof.
  induction 1 as [|x s u _ IH|x s u _ IH]; simpl; [done| |].
  - intros [H1 H2]%andb_true_iff. rewrite H1. by apply IH.
  - intros [_ H2]%andb_true_iff. by apply IH.
Qed.

Lemma encodable_app s u : encodable (s ++ u) = encodable s && encodable u.
Proof. apply forallb_app. Qed.

Lemma clean_html_encodable s :
  encodable s = true -> encodable (clean_html s) = true.
Proof. apply encodable_sublist, clean_html_sublist. Qed.

Section StoredDocuments.

Variable lower : str -> str.
Variable llm : nat -> messages -> completion.
Variable app_dir : Path.

(** The first request of a run of the engine carries the two prompts. *)
Lemma continuation_engine_first_request user_prompt system_prompt w r w' :
  continuation_engine lower llm user_prompt system_prompt w = (r, w') ->
  calls w' !! length (calls w) = Some (build_messages user_prompt system_prompt).
Proof.
  unfold continuation_engine, bind. intros Hrun.
  destruct (call_llm_cases llm user_prompt system_prompt w) as
    [(c & _ & E) | (e & _ & E)]; rewrite E in Hrun; clear E;
    set (m := build_messages user_prompt system_prompt) in *;
    assert (calls (logged w m) !! length (calls w) = Some m) as Hfirst
      by (rewrite calls_logged; by rewrite lookup_app_r, Nat.sub_diag);
    [|by simplify_eq].
  destruct (while_loop lower llm _ (logged w m)) as [r2 w2] eqn:Hloop.
  apply (provider_run_loop lower llm _ _ _ _ _ (Nat.le_refl _)) in Hloop
    as [(_ & [k Hk] & _) _].
  assert (w' = w2) as -> by (destruct r2; unfold ret in Hrun; by simplify_eq).
  rewrite Hk. apply lookup_app_l_Some. done.
Qed.

(** A provider that answers with texts that can be encoded makes the
    engine return such a text. *)
Lemma loop_reach_encodable st0 w0 st w :
  (forall n m c, llm n m = Completion c -> encodable c = true) ->
  encodable (cleaned_html st0) = true ->
  loop_reach lower llm st0 w0 st w -> encodable (cleaned_html st) = true.
Proof.
  intros Hllm H0. induction 1 as [|st w c w' _ IH _ Hreq]; [done|].
  destruct (loop_request_cases llm st w) as [(c' & Hc & E) | (e & _ & E)];
    rewrite E in Hreq; [|done]. injection Hreq as -> _.
  cbn [loop_append cleaned_html]. rewrite !encodable_app, IH. cbn [andb].
  apply andb_true_iff. split; [done|].
  eapply clean_html_encodable, Hllm, Hc.
Qed.

Lemma continuation_engine_encodable user_prompt system_prompt w text w' :
  (forall n m c, llm n m = Completion c -> encodable c = true) ->
  continuation_engine lower llm user_prompt system_prompt w = (Ok text, w') ->
  encodable text = true.
Proof.
  intros Hllm. unfold continuation_engine, bind. intros Hrun.
  destruct (call_llm_cases llm user_prompt system_prompt w) as
    [(c & Hc & E) | (e & _ & E)]; rewrite E in Hrun; [|done].
  destruct (while_loop lower llm _ _) as [[st|e] w2] eqn:Hloop; [|done].
  unfold ret in Hrun. injection Hrun as <- <-.
  destruct (while_loop_bounded lower llm _ _ _ _ _ _ _
              (Nat.le_refl _) (reach_start _ _ _ _) Hloop) as [_ Hfin].
  destruct (Hfin st eq_refl) as [Hreach _].
  eapply loop_reach_encodable; [done| |exact Hreach].
  cbn [cleaned_html]. eapply clean_html_encodable, Hllm, Hc.
Qed.

End StoredDocuments.

(** What a generate call that answers with a response has done. *)
Lemma generate_ok_inv
    (lower : str -> str) (llm : nat -> messages -> completion)
    (app_dir : Path) (request : GenerateSystemRequest.t)
    (w w' : world) (response : GenerateSystemResponse.t) :
  generate_design_system lower llm app_dir request w = (Ok response, w') ->
  exists cleaned q,
    response
    = generate_response
        (derive_file_name lower (GenerateSystemRequest.name request)) cleaned /\
    resolve (fs w)
      (joinpath (systems_dir app_dir)
         (derive_file_name lower (GenerateSystemRequest.name request)))
    = Some q /\
    is_dir (fs w) q = false /\
    fs w' = <[q := File cleaned]> (fs w).
Proof.
  intros Hrun. rewrite generate_outcome in Hrun.
  destruct (read_requirements_cases app_dir w) as [[reqs|e] E];
    rewrite E in Hrun; [|done].
  destruct (continuation_engine _ _ _ _ w) as [[cleaned|e] w1] eqn:Heng;
    [|done].
  apply provider_run_engine in Heng as [(Hfs & _) _].
  cbv zeta in Hrun.
  destruct (fs_write _ _ _) as [[[]|e] t'] eqn:Hwrite; [|done].
  injection Hrun as <- <-.
  apply fs_write_ok in Hwrite as (_ & q & Hres & Hdir & ->).
  rewrite Hfs in *. by exists cleaned, q.
Qed.

(** What a generate call that fails has done to the files. *)
Lemma generate_raise_inv
    (lower : str -> str) (llm : nat -> messages -> completion)
    (app_dir : Path) (request : GenerateSystemRequest.t)
    (w w' : world) (e : exn) :
  generate_design_system lower llm app_dir request w = (Raise e, w') ->
  exists cause,
    e = generate_failed cause /\
    (fs w' = fs w \/
     ~ (forall n m c, llm n m = Completion c -> encodable c = true) /\
     exists q,
       resolve (fs w)
         (joinpath (systems_dir app_dir)
            (derive_file_name lower (GenerateSystemRequest.name request)))
       = Some q /\
       is_dir (fs w) q = false /\
       fs w' = <[q := File []]> (fs w)).
Proof.
  intros Hrun. rewrite generate_outcome in Hrun.
  destruct (read_requirements_cases app_dir w) as [[reqs|e0] E];
    rewrite E in Hrun.
  2: { injection Hrun as <- <-. eexists. split; [done | by left]. }
  destruct (continuation_engine _ _ _ _ w) as [[cleaned|e1] w1] eqn:Heng;
    pose proof Heng as Henc;
    apply provider_run_engine in Heng as [(Hfs & _) _].
  2: { injection Hrun as <- <-. eexists. split; [done | by left]. }
  cbv zeta in Hrun.
  destruct (fs_write _ _ _) as [[[]|e2] t'] eqn:Hwrite; [done|].
  injection Hrun as <- <-. exists e2. split; [done|]. cbn [fs].
  rewrite Hfs in Hwrite.
  apply fs_write_raises in Hwrite as [_ [-> | (Hbad & q & ? & ? & ->)]];
    [by left|].
  right. split; [|by exists q].
  intros Hllm. apply (continuation_engine_encodable _ _ _ _ _ _ _ Hllm) in Henc.
  congruence.
Qed.

(** X6. A generate call that answers with a response has stored the
    returned content: the path of the derived name leads to a regular file
    that holds exactly [content], replacing whatever was there, and no other
    path changed. The response names that file. A read of the path gives the
    content back with universal newlines: as it is when it has no carriage
    return, and with [\r\n] and [\r] turned into [\n] otherwise. *)
Theorem generate_design_system_stores_content
    (lower : str -> str) (llm : nat -> messages -> completion)
    (app_dir : Path) (request : GenerateSystemRequest.t)
    (w w' : world) (response : GenerateSystemResponse.t) :
  generate_design_system lower llm app_dir request w = (Ok response, w') ->
  let file_path :=
    joinpath (systems_dir app_dir) (GenerateSystemResponse.fileName response) in
  let content := GenerateSystemResponse.content response in
  GenerateSystemResponse.success response = true /\
  GenerateSystemResponse.fileName response
  = derive_file_name lower (GenerateSystemRequest.name request) /\
  GenerateSystemResponse.path response
  = py "/systems/" ++ GenerateSystemResponse.fileName response /\
  (exists q,
     resolve (fs w) file_path = Some q /\
     fs w' = <[q := File content]> (fs w)) /\
  file_at (fs w') file_path content /\
  fs_exists (fs w') file_path = true /\
  fs_read_text (fs w') file_path = Ok (universal_newlines content) /\
  (cr ∉ content -> fs_read_text (fs w') file_path = Ok content).
Proof.
  intros Hrun.
  destruct (generate_ok_inv _ _ _ _ _ _ _ Hrun)
    as (cleaned & q & -> & Hres & Hdir & Hfs).
  cbn. split; [done|]. split; [done|]. split; [done|].
  split; [by exists q|]. rewrite Hfs.
  destruct (fs_read_after_write (fs w) _ q cleaned Hres Hdir)
    as (Hfile & Hread & Hex & _).
  split; [done|]. split; [done|]. split; [done|].
  intros Hcr. by rewrite Hread, universal_newlines_id.
Qed.

(** The sample run of the two-part provider stores the joined text. *)
Lemma generate_design_system_stores_content_witness :
  exists response w',
    generate_design_system ascii_lower two_part_llm sample_dir
      (GenerateSystemRequest.Build (py "Ocean") (py "calm")) sample_world
    = (Ok response, w') /\
    fs_read_text (fs w')
      (joinpath (systems_dir sample_dir) (py "ocean.html"))
    = Ok (py "<html><body><p>Ocean</" ++ nl :: py "p></body></html>").
Proof.
  set (request := GenerateSystemRequest.Build (py "Ocean") (py "calm")).
  set (run := generate_design_system ascii_lower two_part_llm sample_dir
                request sample_world).
  assert (run = (Ok (generate_response (py "ocean.html")
                       (py "<html><body><p>Ocean</" ++ nl :: py "p></body></html>")),
                 snd run)) as Hrun
    by (rewrite (surjective_pairing run) at 1; f_equal).
  eexists _, (snd run). split; [exact Hrun|].
  apply (generate_design_system_stores_content _ _ _ _ _ _ _ Hrun).
  apply (bool_decide_unpack _). by vm_compute.
Defined.

(** X7. Every failure of a generate call is answered 500, with a detail
    that starts with the handler's text. The files are as they were, with
    one exception: the file at the path may have been opened for writing
    before the failure and is then left empty, also when it held a document
    before. This happens only when the text to store cannot be encoded:
    with a provider whose answers hold no surrogate, every failure leaves
    all files as they were. *)
Theorem generate_design_system_failures
    (lower : str -> str) (llm : nat -> messages -> completion)
    (app_dir : Path) (request : GenerateSystemRequest.t)
    (w w' : world) (e : exn) :
  generate_design_system lower llm app_dir request w = (Raise e, w') ->
  let file_path :=
    joinpath (systems_dir app_dir)
      (derive_file_name lower (GenerateSystemRequest.name request)) in
  (exists cause,
     e = HTTPException 500 (py "Failed to generate design system: " ++ cause)) /\
  (fs w' = fs w \/
   exists q,
     resolve (fs w) file_path = Some q /\
     fs w' = <[q := File []]> (fs w) /\
     file_at (fs w') file_path []) /\
  ((forall n m c, llm n m = Completion c -> encodable c = true) ->
   fs w' = fs w).
Proof.
  intros Hrun file_path.
  destruct (generate_raise_inv _ _ _ _ _ _ _ Hrun)
    as (cause & -> & [Hfs | (Hbad & q & Hres & Hdir & Hfs)]).
  - split; [by eexists|]. split; [by left | done].
  - split; [by eexists|]. split; [|done]. right. exists q.
    split; [done|]. split; [done|]. rewrite Hfs.
    by apply fs_read_after_write.
Qed.

(** A provider whose answers hold a lone surrogate: the call for the name
    of the stored sample document fails, and the document is left empty. *)
Lemma generate_design_system_failures_witness :
  exists detail w',
    generate_design_system ascii_lower surrogate_llm sample_dir
      (GenerateSystemRequest.Build (py "Ocean") (py "calm")) sample_world
    = (Raise (HTTPException 500 detail), w') /\
    sample_fs !! (sample_systems ++ [py "ocean.html"])
    = Some (File (py "<html><body></body></html>")) /\
    fs w' !! (sample_systems ++ [py "ocean.html"]) = Some (File []).
Proof.
  set (run := generate_design_system ascii_lower surrogate_llm sample_dir
                (GenerateSystemRequest.Build (py "Ocean") (py "calm"))
                sample_world).
  assert (run = (Raise (generate_failed (ValueError (py "surrogates not allowed"))),
                 snd run)) as Hrun
    by (rewrite (surjective_pairing run) at 1; f_equal).
  eexists _, (snd run). split; [exact Hrun|]. split; [reflexivity|].
  destruct (generate_design_system_failures _ _ _ _ _ _ _ Hrun)
    as (_ & [Hfs | (q & Hres & Hfs & _)] & _).
  - exfalso.
    assert (fs (snd run) !! (sample_systems ++ [py "ocean.html"])
            = Some (File [])) as H by reflexivity.
    rewrite Hfs in H. discriminate H.
  - injection Hres as <-. rewrite Hfs. apply lookup_insert_eq.
Defined.

(** X8. An edit call that answers with a response has read a regular file
    at the path of the given name, has put its text, read with universal
    newlines, and the comment into the first request, and has replaced the
    file's content by the returned one; no other path changed, and the
    response repeats the file name. *)
Theorem edit_design_system_overwrites
    (lower : str -> str) (llm : nat -> messages -> completion)
    (app_dir : Path) (request : EditSystemRequest.t)
    (w w' : world) (response : EditSystemResponse.t) :
  edit_design_system lower llm app_dir request w = (Ok response, w') ->
  let file_path :=
    joinpath (systems_dir app_dir) (EditSystemRequest.fileName request) in
  EditSystemResponse.success response = true /\
  EditSystemResponse.fileName response = EditSystemRequest.fileName request /\
  exists existing q,
    resolve (fs w) file_path = Some q /\
    fs w !! q = Some (File existing) /\
    calls w' !! length (calls w)
    = Some (build_messages
              (edit_user_prompt (universal_newlines existing)
                 (EditSystemRequest.comment request))
              edit_system_prompt) /\
    fs w' = <[q := File (EditSystemResponse.content response)]> (fs w) /\
    file_at (fs w') file_path (EditSystemResponse.content response) /\
    fs_read_text (fs w') file_path
    = Ok (universal_newlines (EditSystemResponse.content response)).
Proof.
  intros Hrun file_path. rewrite edit_outcome in Hrun. cbv zeta in Hrun.
  fold file_path in Hrun.
  destruct (fs_refused (fs w) file_path); [done|].
  destruct (fs_exists (fs w) file_path); [|done].
  destruct (fs_read_text (fs w) file_path) as [text|e] eqn:Hread; [|done].
  destruct (continuation_engine _ _ _ _ w) as [[cleaned|e] w1] eqn:Heng;
    [|done].
  pose proof (continuation_engine_first_request _ _ _ _ _ _ _ Heng) as Hfirst.
  apply provider_run_engine in Heng as [(Hfs & _) _].
  destruct (fs_write _ _ _) as [[[]|e] t'] eqn:Hwrite; [|done].
  injection Hrun as <- <-. cbn.
  apply fs_write_ok in Hwrite as (_ & q & Hres & Hdir & ->).
  rewrite Hfs in *.
  unfold fs_read_text in Hread.
  rewrite (proj1 (resolve_locate _ _ _) Hres), Hdir in Hread.
  destruct (fs w !! q) as [[existing|]|] eqn:Hfile; [|done..].
  injection Hread as <-.
  split; [done|]. split; [done|]. exists existing, q.
  split; [done|]. split; [done|]. split; [done|]. split; [done|].
  destruct (fs_read_after_write (fs w) file_path q cleaned Hres Hdir)
    as (? & ? & _). done.
Qed.

(** An edit of the stored sample document. *)
Lemma edit_design_system_overwrites_witness :
  exists response w',
    edit_design_system ascii_lower whole_llm sample_dir
      (EditSystemRequest.Build (py "ocean.html") (py "darker")) sample_world
    = (Ok response, w') /\
    EditSystemResponse.fileName response = py "ocean.html" /\
    file_at (fs w') (joinpath (systems_dir sample_dir) (py "ocean.html"))
      (EditSystemResponse.content response).
Proof.
  set (run := edit_design_system ascii_lower whole_llm sample_dir
                (EditSystemRequest.Build (py "ocean.html") (py "darker"))
                sample_world).
  assert (run = (Ok {| EditSystemResponse.success := true;
                       EditSystemResponse.fileName := py "ocean.html";
                       EditSystemResponse.content :=
                         py "<html><body></body></html>" |}, snd run)) as Hrun
    by (rewrite (surjective_pairing run) at 1; f_equal).
  destruct (edit_design_system_overwrites _ _ _ _ _ _ _ Hrun)
    as (_ & Hname & existing & q & _ & _ & _ & _ & Hfile & _).
  eexists _, (snd run). split; [exact Hrun|]. split; [exact Hname | exact Hfile].
Defined.

(** X9. Every failure of an edit call is answered 404 or 500. The files
    are as they were, with one exception: the document may have been opened
    for writing before the failure and is then left empty. This happens only
    when the new text cannot be encoded: with a provider whose answers hold
    no surrogate, every failure leaves all files as they were. *)
Theorem edit_design_system_failures
    (lower : str -> str) (llm : nat -> messages -> completion)
    (app_dir : Path) (request : EditSystemRequest.t)
    (w w' : world) (e : exn) :
  edit_design_system lower llm app_dir request w = (Raise e, w') ->
  let file_path :=
    joinpath (systems_dir app_dir) (EditSystemRequest.fileName request) in
  (e = HTTPException 404 (py "Design system file not found") \/
   exists cause,
     e = HTTPException 500 (py "Failed to edit design system: " ++ cause)) /\
  (fs w' = fs w \/
   exists q existing,
     resolve (fs w) file_path = Some q /\
     fs w !! q = Some (File existing) /\
     fs w' = <[q := File []]> (fs w) /\
     file_at (fs w') file_path []) /\
  ((forall n m c, llm n m = Completion c -> encodable c = true) ->
   fs w' = fs w).
Proof.
  intros Hrun file_path. rewrite edit_outcome in Hrun. cbv zeta in Hrun.
  fold file_path in Hrun.
  destruct (fs_refused _ _).
  { injection Hrun as <- <-. split; [right; by eexists|]. split; [by left|done]. }
  destruct (fs_exists _ _).
  2: { injection Hrun as <- <-. split; [by left|]. split; [by left | done]. }
  destruct (fs_read_text _ _) as [text|e1] eqn:Hread.
  2: { injection Hrun as <- <-. split; [right; by eexists|].
       split; [by left | done]. }
  destruct (continuation_engine _ _ _ _ w) as [[cleaned|e1] w1] eqn:Heng;
    pose proof Heng as Henc;
    apply provider_run_engine in Heng as [(Hfs & _) _].
  2: { injection Hrun as <- <-. split; [right; by eexists|].
       split; [by left | done]. }
  destruct (fs_write _ _ _) as [[[]|e2] t'] eqn:Hwrite; [done|].
  injection Hrun as <- <-. split; [right; by eexists|]. cbn [fs].
  rewrite Hfs in Hwrite.
  apply fs_write_raises in Hwrite as [_ [-> | (Hbad & q & Hres & Hdir & ->)]];
    [split; [by left | done]|].
  split.
  - right. unfold fs_read_text in Hread.
    rewrite (proj1 (resolve_locate _ _ _) Hres), Hdir in Hread.
    destruct (fs w !! q) as [[existing|]|] eqn:Hfile; [|done..].
    exists q, existing. split; [done|]. split; [done|]. split; [done|].
    by apply fs_read_after_write.
  - intros Hllm.
    apply (continuation_engine_encodable _ _ _ _ _ _ _ Hllm) in Henc.
    congruence.
Qed.

(** A provider whose answers hold a lone surrogate: the edit of the stored
    sample document fails, and the document is left empty. *)
Lemma edit_design_system_failures_witness :
  exists detail w',
    edit_design_system ascii_lower surrogate_llm sample_dir
      (EditSystemRequest.Build (py "ocean.html") (py "darker")) sample_world
    = (Raise (HTTPException 500 detail), w') /\
    fs w' !! (sample_systems ++ [py "ocean.html"]) = Some (File []).
Proof.
  set (run := edit_design_system ascii_lower surrogate_llm sample_dir
                (EditSystemRequest.Build (py "ocean.html") (py "darker"))
                sample_world).
  assert (run = (Raise (edit_failed (ValueError (py "surrogates not allowed"))),
                 snd run)) as Hrun
    by (rewrite (surjective_pairing run) at 1; f_equal).
  eexists _, (snd run). split; [exact Hrun|].
  destruct (edit_design_system_failures _ _ _ _ _ _ _ Hrun)
    as (_ & [Hfs | (q & existing & Hres & _ & Hfs & _)] & _).
  - exfalso.
    assert (fs (snd run) !! (sample_systems ++ [py "ocean.html"])
            = Some (File [])) as H by reflexivity.
    rewrite Hfs in H. discriminate H.
  - injection Hres as <-. rewrite Hfs. apply lookup_insert_eq.
Defined.

(** X10. Deleting a document that a generate call has just created, under
    the file name of the response, brings the files back to what they were
    before the generate call, when nothing existed at the path before and
    the name passes the test of the delete handler. *)
Theorem generate_then_delete_restores
    (lower : str -> str) (llm : nat -> messages -> completion)
    (app_dir : Path) (request : GenerateSystemRequest.t)
    (w w1 : world) (response : GenerateSystemResponse.t) :
  let file_name := GenerateSystemResponse.fileName response in
  generate_design_system lower llm app_dir request w = (Ok response, w1) ->
  fs_exists (fs w) (joinpath (systems_dir app_dir) file_name) = false ->
  rejected_name file_name = false ->
  exists w2,
    delete_design_system app_dir file_name w1
    = (Ok {| DeleteResponse.success := true;
             DeleteResponse.fileName := file_name |}, w2) /\
    fs w2 = fs w /\ calls w2 = calls w1.
Proof.
  intros file_name Hgen Hnew Hsafe.
  destruct (generate_ok_inv _ _ _ _ _ _ _ Hgen)
    as (cleaned & q & Hresp & Hres & _ & Hfs).
  assert (file_name
          = derive_file_name lower (GenerateSystemRequest.name request)) as Hname
    by (unfold file_name; by rewrite Hresp).
  rewrite <- Hname in Hres.
  unfold fs_exists in Hnew. rewrite Hres in Hnew.
  apply orb_false_iff in Hnew as [Hdir Hnone].
  destruct (fs_read_after_write (fs w) _ q cleaned Hres Hdir)
    as (_ & _ & Hex & Hacc).
  rewrite <- Hfs in Hex, Hacc.
  apply bool_decide_eq_false in Hnone.
  assert (fs w !! q = None) as Hq
    by (destruct (fs w !! q) eqn:E; [exfalso; apply Hnone; by eexists | done]).
  eexists. rewrite delete_outcome, Hsafe. cbv zeta. rewrite Hacc, Hex.
  unfold fs_unlink. rewrite Hfs, locate_insert_file by done.
  rewrite (proj1 (resolve_locate _ _ _) Hres).
  rewrite is_dir_insert_file, Hdir, lookup_insert_eq by done.
  split; [reflexivity|]. cbn [fs]. split; [|done].
  by rewrite delete_insert_eq, delete_id.
Qed.

(** A new document of the sample world, generated and deleted. *)
Lemma generate_then_delete_restores_witness :
  exists w1 w2,
    delete_design_system sample_dir (py "deep-sea.html") w1
    = (Ok {| DeleteResponse.success := true;
             DeleteResponse.fileName := py "deep-sea.html" |}, w2) /\
    fs w2 = sample_fs.
Proof.
  set (run := generate_design_system ascii_lower whole_llm sample_dir
                (GenerateSystemRequest.Build (py "Deep Sea") (py "calm"))
                sample_world).
  assert (run = (Ok (generate_response (py "deep-sea.html")
                       (py "<html><body></body></html>")), snd run)) as Hrun
    by (rewrite (surjective_pairing run) at 1; f_equal).
  destruct (generate_then_delete_restores _ _ _ _ _ _ _ Hrun)
    as (w2 & Hdel & Hfs & _); [reflexivity | reflexivity |].
  exists (snd run), w2. split; [exact Hdel | exact Hfs].
Defined.

(** X11. A document whose file name holds two dots in a row or a backslash
    can be created by a generate call but not deleted: the delete handler
    answers 400 for the file name of the response, and the path of that
    name still leads to the file with the stored content. *)
Theorem generated_name_can_be_undeletable
    (lower : str -> str) (llm : nat -> messages -> completion)
    (app_dir : Path) (request : GenerateSystemRequest.t)
    (w w1 : world) (response : GenerateSystemResponse.t) :
  let file_name := GenerateSystemResponse.fileName response in
  generate_design_system lower llm app_dir request w = (Ok response, w1) ->
  infix (py "..") file_name \/ infix (py "\") file_name ->
  delete_design_system app_dir file_name w1
  = (Raise (HTTPException 400 (py "Invalid file name")), w1) /\
  file_at (fs w1) (joinpath (systems_dir app_dir) file_name)
    (GenerateSystemResponse.content response) /\
  fs_exists (fs w1) (joinpath (systems_dir app_dir) file_name) = true.
Proof.
  intros file_name Hgen Hname.
  destruct (generate_ok_inv _ _ _ _ _ _ _ Hgen)
    as (cleaned & q & Hresp & Hres & Hdir & Hfs).
  split.
  2: { unfold file_name. rewrite Hresp, Hfs. cbn.
       destruct (fs_read_after_write (fs w) _ q cleaned Hres Hdir)
         as (? & _ & ? & _). done. }
  rewrite delete_outcome.
  assert (rejected_name file_name = true) as ->; [|done].
  apply rejected_name_infix. tauto.
Qed.

(** The display name ["v1..2"] gives the file [v1..2.html] in the storage
    directory, which the delete handler refuses. *)
Lemma generated_name_can_be_undeletable_witness :
  exists w1,
    generate_design_system ascii_lower whole_llm sample_dir
      (GenerateSystemRequest.Build (py "v1..2") (py "calm")) sample_world
    = (Ok (generate_response (py "v1..2.html")
             (py "<html><body></body></html>")), w1) /\
    fs w1 !! (sample_systems ++ [py "v1..2.html"])
    = Some (File (py "<html><body></body></html>")) /\
    delete_design_system sample_dir (py "v1..2.html") w1
    = (Raise (HTTPException 400 (py "Invalid file name")), w1).
Proof.
  set (run := generate_design_system ascii_lower whole_llm sample_dir
                (GenerateSystemRequest.Build (py "v1..2") (py "calm"))
                sample_world).
  assert (run = (Ok (generate_response (py "v1..2.html")
                       (py "<html><body></body></html>")), snd run)) as Hrun
    by (rewrite (surjective_pairing run) at 1; f_equal).
  exists (snd run). split; [exact Hrun|]. split; [reflexivity|].
  apply (generated_name_can_be_undeletable _ _ _ _ _ _ _ Hrun).
  left. by exists (py "v1"), (py "2.html").
Defined.

(** ** The listing *)

Lemma child_name_spec q k name : child_name q k = Some name <-> k = q ++ [name].
Proof.
  unfold child_name. split.
  - destruct (drop (length q) k) as [|x [|??]] eqn:Hdrop; [done| |done].
    case_bool_decide as Htake; [|done]. intros [= ->].
    by rewrite <- (take_drop (length q) k), Htake, Hdrop.
  - intros ->. rewrite drop_app_length, take_app_length.
    by rewrite bool_decide_eq_true_2.
Qed.

(** The entries that [glob] yields. *)
Lemma fs_glob_html_spec (t : gmap Path node) p name :
  name ∈ fs_glob_html t p <->
  exists q, resolve t p = Some q /\ is_dir t q = true /\
    is_Some (t !! (q ++ [name])) /\ py ".html" `suffix_of` name.
Proof.
  unfold fs_glob_html. destruct (resolve t p) as [q|].
  2: { rewrite elem_of_nil. split; [done | by intros (? & ? & _)]. }
  destruct (is_dir t q) eqn:Hdir.
  2: { rewrite elem_of_nil. split; [done|].
       intros (? & [= <-] & ? & _). congruence. }
  rewrite list_elem_of_filter, list_elem_of_omap, Is_true_true, endswith_suffix.
  split.
  - intros [Hsuf ([k v] & Hin%elem_of_map_to_list & Hk)].
    cbn [fst] in Hk. apply child_name_spec in Hk as ->.
    exists q. by rewrite Hin.
  - intros (? & [= <-] & _ & [v Hv] & Hsuf). split; [done|].
    exists (q ++ [name], v). split; [by apply elem_of_map_to_list|].
    by apply child_name_spec.
Qed.

Lemma fs_glob_html_NoDup (t : gmap Path node) p : NoDup (fs_glob_html t p).
Proof.
  unfold fs_glob_html. destruct (resolve t p) as [q|]; [|constructor].
  destruct (is_dir t q); [|constructor]. apply NoDup_filter.
  pose proof (NoDup_fst_map_to_list t) as Hkeys.
  induction (map_to_list t) as [|[k v] l IH]; [constructor|].
  rewrite fmap_cons in Hkeys. apply NoDup_cons in Hkeys as [Hk Hl].
  cbn [omap list_omap fst]. destruct (child_name q k) as [name|] eqn:Hname;
    [|by apply IH].
  apply NoDup_cons. split; [|by apply IH].
  rewrite list_elem_of_omap. intros ([k' v'] & Hin & Hname').
  apply child_name_spec in Hname, Hname'. cbn in Hname'. subst k k'.
  apply Hk, list_elem_of_fmap. by exists (q ++ [name], v').
Qed.

(** The listing handler, step by step. *)
Lemma list_outcome app_dir w :
  list_design_systems app_dir w =
  if fs_refused (fs w) (systems_dir app_dir) then
    (Raise (HTTPException 500
              (py "Failed to list design systems: File name too long")), w)
  else
    (Ok {| DesignSystemsListResponse.systems :=
             listed_info <$> fs_glob_html (fs w) (systems_dir app_dir) |}, w).
Proof.
  unfold list_design_systems, try_except, bind, glob_html, lift_fs.
  by destruct (fs_refused _ _).
Qed.

Lemma list_outcome_resolved app_dir w q :
  resolve (fs w) (systems_dir app_dir) = Some q ->
  list_design_systems app_dir w
  = (Ok {| DesignSystemsListResponse.systems :=
             listed_info <$> fs_glob_html (fs w) (systems_dir app_dir) |}, w).
Proof. intros H. by rewrite list_outcome, (fs_refused_resolve _ _ _ H). Qed.

Lemma listed_info_inj : Inj (=) (=) listed_info.
Proof. by intros a b [=]. Qed.

(** X12. When the system does not refuse the path of the storage
    directory itself as too long, the listing succeeds and changes nothing.
    It holds one entry, and only one, for every file or folder that sits
    directly in the storage directory and whose name ends in [.html], lower
    case, hidden or not; the entry carries that name, the path under
    [/systems/], and as display name the name up to its last dot with
    hyphens turned into spaces. When the storage directory is missing the
    listing is empty. *)
Theorem list_design_systems_entries (app_dir : Path) (w : world) :
  fs_refused (fs w) (systems_dir app_dir) = false ->
  exists infos,
    list_design_systems app_dir w
    = (Ok {| DesignSystemsListResponse.systems := infos |}, w) /\
    NoDup infos /\
    (forall info, info ∈ infos <->
       exists q f_name,
         resolve (fs w) (systems_dir app_dir) = Some q /\
         is_dir (fs w) q = true /\
         is_Some (fs w !! (q ++ [f_name])) /\
         py ".html" `suffix_of` f_name /\
         info = {| DesignSystemInfo.fileName := f_name;
                   DesignSystemInfo.path := py "/systems/" ++ f_name;
                   DesignSystemInfo.name :=
                     replace (py "-") (py " ") (stem f_name) |}) /\
    (fs_exists (fs w) (systems_dir app_dir) = false -> infos = []).
Proof.
  intros Hacc.
  eexists. split; [by rewrite list_outcome, Hacc|]. split; [|split].
  - apply (@NoDup_fmap_2 _ _ listed_info listed_info_inj), fs_glob_html_NoDup.
  - intros info. rewrite list_elem_of_fmap. split.
    + intros (f_name & -> & (q & ? & ? & ? & ?)%fs_glob_html_spec).
      by exists q, f_name.
    + intros (q & f_name & ? & ? & ? & ? & ->). exists f_name.
      split; [done|]. apply fs_glob_html_spec. by exists q.
  - intros Hex. unfold fs_glob_html, fs_exists in *.
    destruct (resolve _ _) as [q|]; [|done].
    apply orb_false_iff in Hex as [-> _]. done.
Qed.

(** The listing of the sample world shows the stored document. *)
Lemma list_design_systems_entries_witness :
  exists infos,
    list_design_systems sample_dir sample_world
    = (Ok {| DesignSystemsListResponse.systems := infos |}, sample_world) /\
    {| DesignSystemInfo.fileName := py "ocean.html";
       DesignSystemInfo.path := py "/systems/ocean.html";
       DesignSystemInfo.name := py "ocean" |} ∈ infos.
Proof.
  destruct (list_design_systems_entries sample_dir sample_world)
    as (infos & Hlist & _ & Hin & _); [vm_compute; reflexivity|].
  exists infos. split; [exact Hlist|]. apply Hin.
  exists sample_systems, (py "ocean.html").
  split; [vm_compute; reflexivity|]. split; [vm_compute; reflexivity|].
  split; [|split; [by exists (py "ocean") | reflexivity]].
  exists (File (py "<html><body></body></html>")). reflexivity.
Defined.

Lemma walk_app (t : gmap Path node) a b : forall cur,
  walk t cur (a ++ b)
  = match walk t cur a with Found c => walk t c b | l => l end.
Proof.
  induction a as [|x a IH]; intros cur; [done|]. simpl.
  destruct (is_dir t cur); [|done].
  case_bool_decide; [apply IH|].
  destruct (NAME_MAX <? fs_bytes x)%N; [done | apply IH].
Qed.

Lemma path_bytes_snoc p name : (path_bytes p <= path_bytes (p ++ [name]))%N.
Proof.
  destruct p as [|c p]; [cbn; lia|].
  unfold path_bytes. change ((c :: p) ++ [name]) with (c :: (p ++ [name])).
  cbn [foldr].
  assert (foldr (fun c n => 1 + fs_bytes c + n) 0 p
          <= foldr (fun c n => 1 + fs_bytes c + n) 0 (p ++ [name]))%N; [|lia].
  induction p as [|x p IH]; cbn; lia.
Qed.

(** The path of an entry resolves through its directory. *)
Lemma resolve_child (t : gmap Path node) p name q :
  name <> py ".." -> resolve t (p ++ [name]) = Some q ->
  exists q0, resolve t p = Some q0 /\ is_dir t q0 = true /\ q = q0 ++ [name].
Proof.
  intros Hname Hres%resolve_locate. unfold resolve, locate in *.
  rewrite forallb_app in Hres.
  destruct (forallb fs_encodable p); [|done]. cbn [andb negb] in *.
  destruct (forallb fs_encodable [name]); [|done]. cbn [negb] in Hres.
  destruct (N.leb_spec PATH_MAX (path_bytes (p ++ [name]))) as [?|Hlen]; [done|].
  pose proof (path_bytes_snoc p name) as Hle.
  destruct (N.leb_spec PATH_MAX (path_bytes p)) as [?|_]; [lia|].
  rewrite walk_app in Hres.
  destruct (walk t [] p) as [q0| | |]; try done. exists q0. simpl in Hres.
  destruct (is_dir t q0); [|done].
  rewrite bool_decide_eq_false_2 in Hres by done.
  destruct (NAME_MAX <? fs_bytes name)%N; [done|]. by injection Hres as <-.
Qed.

Lemma rfind_absent c s : c ∉ s -> rfind c s = None.
Proof.
  induction s as [|x s IH]; [done|]. intros [Hx Hs]%not_elem_of_cons.
  simpl. rewrite IH by done. by destruct (N.eqb_spec x c).
Qed.

Lemma rfind_last c s r : c ∉ r -> rfind c (s ++ c :: r) = Some (length s).
Proof.
  intros Hr. induction s as [|x s IH]; simpl.
  - by rewrite rfind_absent, N.eqb_refl.
  - by rewrite IH.
Qed.

(** The stem of a name with the suffix [.html] and something before it. *)
Lemma stem_html s : s <> [] -> stem (s ++ py ".html") = s.
Proof.
  intros Hs. unfold stem.
  change (py ".html") with (dot :: py "html").
  rewrite rfind_last by (apply (bool_decide_unpack _); by vm_compute).
  rewrite length_app. simpl length.
  assert (0 < length s) by (destruct s; [done | simpl; lia]).
  replace (0 <? length s) with true by (symmetry; by apply Nat.ltb_lt).
  replace (length s <? length s + 5 - 1) with true
    by (symmetry; apply Nat.ltb_lt; lia).
  cbn [andb]. by rewrite take_app_length.
Qed.

Lemma contains_char_absent s c : contains s [c] = false -> c ∉ s.
Proof.
  rewrite contains_false_infix. intros H Hin. apply H.
  apply list_elem_of_split in Hin as (a & b & ->). by exists a, b.
Qed.

(** X13. After a generate call that answers with a response, for a display
    name that is not empty and has no slash when lower-cased, the listing
    shows the document: under the file name and the path of the response,
    and with the lower-cased display name in which every hyphen has become a
    space. *)
Theorem generated_document_is_listed
    (lower : str -> str) (llm : nat -> messages -> completion)
    (app_dir : Path) (request : GenerateSystemRequest.t)
    (w w1 : world) (response : GenerateSystemResponse.t) :
  generate_design_system lower llm app_dir request w = (Ok response, w1) ->
  slash ∉ lower (GenerateSystemRequest.name request) ->
  lower (GenerateSystemRequest.name request) <> [] ->
  exists infos,
    list_design_systems app_dir w1
    = (Ok {| DesignSystemsListResponse.systems := infos |}, w1) /\
    {| DesignSystemInfo.fileName := GenerateSystemResponse.fileName response;
       DesignSystemInfo.path := GenerateSystemResponse.path response;
       DesignSystemInfo.name :=
         (fun c => if N.eqb c hyphen then space else c) <$>
           ((fun c => if N.eqb c space then hyphen else c) <$>
              lower (GenerateSystemRequest.name request)) |} ∈ infos.
Proof.
  intros Hgen Hflat Hname.
  destruct (generate_ok_inv _ _ _ _ _ _ _ Hgen)
    as (cleaned & q & -> & Hres & Hdir & Hfs).
  rewrite joinpath_flat in Hres by done.
  set (file_name := derive_file_name lower (GenerateSystemRequest.name request))
    in *.
  set (shown := (fun c => if N.eqb c space then hyphen else c) <$>
                  lower (GenerateSystemRequest.name request)).
  assert (file_name = shown ++ py ".html") as Hfile
    by apply derive_file_name_spec.
  apply resolve_child in Hres as (q0 & Hres0 & Hdir0 & ->).
  2: { rewrite Hfile. intros H%(f_equal length).
       rewrite length_app in H. simpl in H. lia. }
  assert (resolve (fs w1) (systems_dir app_dir) = Some q0) as Hres1.
  { rewrite Hfs. unfold resolve. by rewrite locate_insert_file. }
  eexists. split; [by apply (list_outcome_resolved _ _ q0)|].
  apply list_elem_of_fmap. exists file_name. split.
  - unfold listed_info, generate_response. cbn. f_equal.
    rewrite Hfile, stem_html.
    + symmetry. apply (replace_char hyphen space).
    + unfold shown. by destruct (lower _).
  - apply fs_glob_html_spec. exists q0. split; [done|].
    rewrite Hfs, is_dir_insert_file by done.
    split; [done|]. split.
    + rewrite lookup_insert_eq. by eexists.
    + rewrite Hfile. by apply suffix_app_r.
Qed.

(** The document generated for ["Deep-Blue Sea"] is listed as
    ["deep blue sea"]. *)
Lemma generated_document_is_listed_witness :
  exists w1 infos,
    list_design_systems sample_dir w1
    = (Ok {| DesignSystemsListResponse.systems := infos |}, w1) /\
    {| DesignSystemInfo.fileName := py "deep-blue-sea.html";
       DesignSystemInfo.path := py "/systems/deep-blue-sea.html";
       DesignSystemInfo.name := py "deep blue sea" |} ∈ infos.
Proof.
  set (run := generate_design_system ascii_lower whole_llm sample_dir
                (GenerateSystemRequest.Build (py "Deep-Blue Sea") (py "calm"))
                sample_world).
  assert (run = (Ok (generate_response (py "deep-blue-sea.html")
                       (py "<html><body></body></html>")), snd run)) as Hrun
    by (rewrite (surjective_pairing run) at 1; f_equal).
  destruct (generated_document_is_listed _ _ _ _ _ _ _ Hrun)
    as (infos & Hlist & Hin).
  - apply (bool_decide_unpack _). by vm_compute.
  - discriminate.
  - exists (snd run), infos. split; [exact Hlist | exact Hin].
Defined.

(** X14. After a delete call that answers with a success, the listing is
    the listing from before without the entry of the deleted file name; all
    other entries are still there. *)
Theorem deleted_document_is_not_listed
    (app_dir : Path) (file_name : str) (w w' : world)
    (response : DeleteResponse.t) :
  delete_design_system app_dir file_name w = (Ok response, w') ->
  exists infos infos',
    list_design_systems app_dir w
    = (Ok {| DesignSystemsListResponse.systems := infos |}, w) /\
    list_design_systems app_dir w'
    = (Ok {| DesignSystemsListResponse.systems := infos' |}, w') /\
    forall info,
      info ∈ infos' <->
      info ∈ infos /\ DesignSystemInfo.fileName info <> file_name.
Proof.
  intros Hdel. rewrite delete_outcome in Hdel.
  destruct (rejected_name file_name) eqn:Hsafe; [done|].
  cbv zeta in Hdel. destruct (fs_refused _ _); [done|].
  destruct (fs_exists _ _); [|done].
  destruct (fs_unlink _ _) as [t'|e] eqn:Hunlink; [|done].
  injection Hdel as <- <-.
  unfold fs_unlink in Hunlink.
  destruct (locate (fs w) _) as [q| | |] eqn:Hres; try done.
  apply resolve_locate in Hres.
  destruct (is_dir (fs w) q) eqn:Hdir; [done|].
  destruct (fs w !! q) as [[body|]|] eqn:Hfile; [|done..].
  injection Hunlink as <-.
  apply orb_false_iff in Hsafe as [[Hslash _]%orb_false_iff Hdots].
  apply contains_char_absent in Hslash.
  assert (file_name <> py "..") as Hne.
  { intros ->. done. }
  assert (exists q0, resolve (fs w) (systems_dir app_dir) = Some q0)
    as [qs Hsys].
  { unfold joinpath in Hres.
    assert (startswith file_name [slash] = false) as Hstart.
    { apply not_true_is_false. intros [k ->]%startswith_prefix.
      apply Hslash. by left. }
    rewrite Hstart in Hres. unfold parts in Hres.
    rewrite split_on_no_sep in Hres by done.
    destruct (decide (file_name <> [] /\ file_name <> py ".")) as [Hpart|Hpart].
    - rewrite filter_cons_True, filter_nil in Hres by done.
      apply (resolve_child (fs w)) in Hres as (q0 & Hres0 & _); [|done].
      by exists q0.
    - rewrite filter_cons_False, filter_nil, app_nil_r in Hres by done.
      by exists q. }
  assert (resolve (delete q (fs w)) (systems_dir app_dir) = Some qs) as Hsys'
    by (by rewrite (resolve_delete_file _ _ body)).
  do 2 eexists. split; [by apply (list_outcome_resolved _ _ qs)|].
  split; [by apply (list_outcome_resolved _ _ qs)|].
  cbn [fs]. intros info. rewrite !list_elem_of_fmap.
  assert (forall f_name,
            f_name ∈ fs_glob_html (delete q (fs w)) (systems_dir app_dir) <->
            f_name ∈ fs_glob_html (fs w) (systems_dir app_dir) /\
            f_name <> file_name) as Hglob.
  { intros f_name. rewrite !fs_glob_html_spec.
    setoid_rewrite (resolve_delete_file (fs w) q body); [|done..].
    setoid_rewrite (is_dir_delete_file (fs w) q body); [|done..].
    unfold joinpath in Hres.
    assert (startswith file_name [slash] = false) as Hstart.
    { apply not_true_is_false. intros [k ->]%startswith_prefix.
      apply Hslash. by left. }
    rewrite Hstart in Hres. unfold parts in Hres.
    rewrite split_on_no_sep in Hres by done.
    destruct (decide (file_name <> [] /\ file_name <> py ".")) as [Hpart|Hpart].
    - rewrite filter_cons_True, filter_nil in Hres by done.
      apply (resolve_child (fs w)) in Hres as (q0 & Hres0 & Hdir0 & ->);
        [|done].
      split.
      + intros (q1 & Hq1 & Hd1 & Hsome & Hsuf).
        rewrite Hres0 in Hq1. injection Hq1 as <-.
        destruct (decide (f_name = file_name)) as [->|Hother].
        * rewrite lookup_delete_eq in Hsome. by destruct Hsome.
        * rewrite lookup_delete_ne in Hsome by (intros ?; simplify_list_eq).
          split; [|done]. by exists q0.
      + intros [(q1 & Hq1 & Hd1 & Hsome & Hsuf) Hother].
        rewrite Hres0 in Hq1. injection Hq1 as <-. exists q0.
        rewrite lookup_delete_ne by (intros ?; simplify_list_eq). done.
    - rewrite filter_cons_False, filter_nil, app_nil_r in Hres by done.
      split.
      + intros (q1 & Hq1 & Hd1 & _). congruence.
      + intros [(q1 & Hq1 & Hd1 & _) _]. congruence. }
  split.
  - intros (f_name & -> & [Hin Hother]%Hglob). split; [by exists f_name | done].
  - intros [(f_name & -> & Hin) Hother]. exists f_name. split; [done|].
    by apply Hglob.
Qed.

(** After the deletion of the sample document the listing does not show
    it. *)
Lemma deleted_document_is_not_listed_witness :
  exists w' infos',
    delete_design_system sample_dir (py "ocean.html") sample_world
    = (Ok {| DeleteResponse.success := true;
             DeleteResponse.fileName := py "ocean.html" |}, w') /\
    list_design_systems sample_dir w'
    = (Ok {| DesignSystemsListResponse.systems := infos' |}, w') /\
    listed_info (py "ocean.html") ∉ infos'.
Proof.
  set (run := delete_design_system sample_dir (py "ocean.html") sample_world).
  assert (run = (Ok {| DeleteResponse.success := true;
                       DeleteResponse.fileName := py "ocean.html" |}, snd run))
    as Hrun by (rewrite (surjective_pairing run) at 1; f_equal).
  destruct (deleted_document_is_not_listed sample_dir (py "ocean.html")
              sample_world _ _ Hrun)
    as (infos & infos' & _ & Hlist' & Hiff).
  exists (snd run), infos'. split; [exact Hrun|]. split; [exact Hlist'|].
  intros [_ Hne]%Hiff. by apply Hne.
Defined.

(** ** The showcase server *)

Lemma calls_showcase_logged w m : calls (showcase_logged w m) = calls w ++ [m].
Proof. unfold calls, showcase_logged. cbn [requests]. by rewrite fmap_app. Qed.

Section ShowcaseHandlers.

Variable lower : str -> str.
Variable llm : nat -> messages -> completion.
Variable app_dir : Path.

Lemma showcase_call_llm_cases user_prompt system_prompt w :
  let m := build_messages user_prompt system_prompt in
  Showcase.call_llm llm user_prompt system_prompt w
  = match llm (length (calls w)) m with
    | Completion c => (Ok c, showcase_logged w m)
    | Failure e => (Raise (ProviderError e), showcase_logged w m)
    end.
Proof. done. Qed.

Lemma call_llm_match user_prompt system_prompt w :
  let m := build_messages user_prompt system_prompt in
  call_llm llm user_prompt system_prompt w
  = match llm (length (calls w)) m with
    | Completion c => (Ok c, logged w m)
    | Failure e => (Raise (ProviderError e), logged w m)
    end.
Proof. done. Qed.

(** The generate handler of the showcase server, step by step. *)
Lemma showcase_generate_outcome request w :
  Showcase.generate_design_system lower llm app_dir request w =
  match read_requirements app_dir w with
  | (Raise e, w0) => (Raise (generate_failed e), w0)
  | (Ok requirements, w0) =>
      match Showcase.call_llm llm (generate_user_prompt request)
              (generate_system_prompt requirements) w0 with
      | (Raise e, w1) => (Raise (generate_failed e), w1)
      | (Ok html_content, w1) =>
          let file_name :=
            derive_file_name lower (GenerateSystemRequest.name request) in
          match fs_write (fs w1)
                  (joinpath (systems_dir app_dir) file_name)
                  (clean_html html_content) with
          | (Raise e, t') =>
              (Raise (generate_failed e), World t' (requests w1))
          | (Ok _, t') =>
              (Ok (generate_response file_name (clean_html html_content)),
               World t' (requests w1))
          end
      end
  end.
Proof.
  unfold Showcase.generate_design_system, try_except, bind.
  destruct (read_requirements app_dir w) as [[requirements|e] w0]; [|done].
  destruct (Showcase.call_llm _ _ _ w0) as [[html_content|e] w1]; [|done].
  unfold write_text. by destruct (fs_write _ _ _) as [[[]|e] t'].
Qed.

(** The edit handler of the showcase server, step by step. *)
Lemma showcase_edit_outcome request w :
  Showcase.edit_design_system llm app_dir request w =
  let file_name := EditSystemRequest.fileName request in
  let file_path := joinpath (systems_dir app_dir) file_name in
  if fs_refused (fs w) file_path then
    (Raise (edit_failed (lookup_error NameTooLong)), w)
  else if fs_exists (fs w) file_path then
    match fs_read_text (fs w) file_path with
    | Raise e => (Raise (edit_failed e), w)
    | Ok existing_content =>
        match Showcase.call_llm llm
                (edit_user_prompt existing_content
                   (EditSystemRequest.comment request))
                edit_system_prompt w with
        | (Raise e, w1) => (Raise (edit_failed e), w1)
        | (Ok updated_html, w1) =>
            match fs_write (fs w1) file_path (clean_html updated_html) with
            | (Raise e, t') =>
                (Raise (edit_failed e), World t' (requests w1))
            | (Ok _, t') =>
                (Ok {| EditSystemResponse.success := true;
                       EditSystemResponse.fileName := file_name;
                       EditSystemResponse.content := clean_html updated_html |},
                 World t' (requests w1))
            end
        end
    end
  else (Raise not_found, w).
Proof.
  unfold Showcase.edit_design_system, try_except, bind, path_exists, read_text,
    lift_fs.
  cbn [fs].
  destruct (fs_refused _ _); [done|].
  destruct (fs_exists _ _); [|done]. cbn [negb].
  destruct (fs_read_text _ _) as [existing|e] eqn:Hread.
  2: { apply fs_read_text_raises in Hread. by destruct e. }
  rewrite showcase_call_llm_cases. cbv zeta.
  destruct (llm _ _) as [c|e]; [|done].
  unfold write_text.
  destruct (fs_write _ _ _) as [[[]|e] t'] eqn:Ew; [done|].
  apply fs_write_raises in Ew as [Ew _]. by destruct e.
Qed.

(** With a complete first answer the engine is the first request and its
    clean-up. *)
Lemma continuation_engine_single user_prompt system_prompt w :
  (forall m first, llm (length (calls w)) m = Completion first ->
     is_html_complete lower (clean_html first) = true) ->
  continuation_engine lower llm user_prompt system_prompt w
  = match call_llm llm user_prompt system_prompt w with
    | (Ok html_content, w1) => (Ok (clean_html html_content), w1)
    | (Raise e, w1) => (Raise e, w1)
    end.
Proof.
  intros Hdone. unfold continuation_engine, bind.
  destruct (call_llm_cases llm user_prompt system_prompt w) as
    [(c & Hc & ->) | (e & _ & ->)]; [|done].
  rewrite while_loop_done; [done|].
  unfold loop_test. cbn [cleaned_html]. by rewrite (Hdone _ _ Hc).
Qed.

End ShowcaseHandlers.

(** X15. When the providers of the two servers give the same first answer
    and it cleans to a complete document, the two servers do the same but
    for the provider they ask: the generate handlers give the same result,
    leave the same files and send the same messages, in requests that differ
    in the model and the token limit ([anthropic/claude-sonnet-4-5-20250929]
    with 64000 tokens, [gpt-4o-mini] with 16000); and so do the edit
    handlers. *)
Theorem showcase_agrees_on_complete_first_answer
    (lower : str -> str) (llm llm' : nat -> messages -> completion)
    (app_dir : Path) (w : world) :
  (forall m, llm' (length (calls w)) m = llm (length (calls w)) m) ->
  (forall m first, llm (length (calls w)) m = Completion first ->
     is_html_complete lower (clean_html first) = true) ->
  (forall request,
     alike w (generate_design_system lower llm app_dir request w)
       (Showcase.generate_design_system lower llm' app_dir request w)) /\
  (forall request,
     alike w (edit_design_system lower llm app_dir request w)
       (Showcase.edit_design_system llm' app_dir request w)).
Proof.
  intros Hsame Hdone.
  assert (forall A (r : result A), alike w (r, w) (r, w)) as Hrefl.
  { intros A r. split; [done|]. split; [done|]. exists [].
    cbn [fmap list_fmap snd]. by rewrite app_nil_r. }
  split; intros request.
  - rewrite generate_outcome, showcase_generate_outcome.
    destruct (read_requirements_cases app_dir w) as [[reqs|e] E];
      rewrite E; [|apply Hrefl].
    rewrite (continuation_engine_single lower llm _ _ w Hdone).
    rewrite call_llm_match, showcase_call_llm_cases. cbv zeta. rewrite Hsame.
    set (m := build_messages _ _).
    destruct (llm (length (calls w)) m) as [c|e].
    + cbn [fs logged logged_all showcase_logged].
      destruct (fs_write _ _ _) as [[[]|e] t'];
        (split; [done|]; split; [done|]; by exists [m]).
    + split; [done|]. split; [done|]. by exists [m].
  - rewrite edit_outcome, showcase_edit_outcome. cbv zeta.
    destruct (fs_refused _ _); [apply Hrefl|].
    destruct (fs_exists _ _); [|apply Hrefl].
    destruct (fs_read_text _ _) as [existing|e]; [|apply Hrefl].
    rewrite (continuation_engine_single lower llm _ _ w Hdone).
    rewrite call_llm_match, showcase_call_llm_cases. cbv zeta. rewrite Hsame.
    set (m := build_messages _ _).
    destruct (llm (length (calls w)) m) as [c|e].
    + cbn [fs logged logged_all showcase_logged].
      destruct (fs_write _ _ _) as [[[]|e] t'];
        (split; [done|]; split; [done|]; by exists [m]).
    + split; [done|]. split; [done|]. by exists [m].
Qed.

(** On the provider of whole documents both generate handlers answer with
    the same response and store the same file; the one request of the
    showcase server goes to [gpt-4o-mini]. *)
Lemma showcase_agrees_on_complete_first_answer_witness :
  fst (Showcase.generate_design_system ascii_lower whole_llm sample_dir
         (GenerateSystemRequest.Build (py "Ocean") (py "calm")) sample_world)
  = fst (generate_design_system ascii_lower whole_llm sample_dir
           (GenerateSystemRequest.Build (py "Ocean") (py "calm")) sample_world) /\
  CompletionRequest.model <$>
    requests (snd (Showcase.generate_design_system ascii_lower whole_llm
                     sample_dir
                     (GenerateSystemRequest.Build (py "Ocean") (py "calm"))
                     sample_world))
  = [py "gpt-4o-mini"].
Proof.
  destruct (showcase_agrees_on_complete_first_answer ascii_lower whole_llm
              whole_llm sample_dir sample_world) as [H _].
  - done.
  - intros m first [= <-]. reflexivity.
  - destruct (H (GenerateSystemRequest.Build (py "Ocean") (py "calm")))
      as (Hfst & _ & _). split; [exact Hfst | reflexivity].
Defined.

(** X16. The generate handler of the showcase server never asks for a
    continuation: a call sends at most one request, to [gpt-4o-mini] with a
    limit of 16000 tokens, and a response carries, and the file at the path
    of its name holds, the cleaned answer to that one request, complete or
    not. *)
Theorem showcase_generate_stores_first_answer
    (lower : str -> str) (llm : nat -> messages -> completion)
    (app_dir : Path) (request : GenerateSystemRequest.t)
    (w w' : world) (r : result GenerateSystemResponse.t) :
  Showcase.generate_design_system lower llm app_dir request w = (r, w') ->
  length (calls w') <= length (calls w) + 1 /\
  forall response, r = Ok response ->
    exists m first,
      requests w'
      = requests w ++ [{| CompletionRequest.model := py "gpt-4o-mini";
                          CompletionRequest.messages := m;
                          CompletionRequest.temperature := py "0.7";
                          CompletionRequest.max_tokens := 16000 |}] /\
      llm (length (calls w)) m = Completion first /\
      GenerateSystemResponse.content response = clean_html first /\
      file_at (fs w')
        (joinpath (systems_dir app_dir)
           (GenerateSystemResponse.fileName response))
        (clean_html first).
Proof.
  intros Hrun. rewrite showcase_generate_outcome in Hrun.
  destruct (read_requirements_cases app_dir w) as [[reqs|e] E];
    rewrite E in Hrun.
  2: { injection Hrun as <- <-. split; [lia | done]. }
  rewrite showcase_call_llm_cases in Hrun. cbv zeta in Hrun.
  set (m := build_messages _ _) in Hrun.
  destruct (llm (length (calls w)) m) as [c|e] eqn:Hc.
  2: { injection Hrun as <- <-. rewrite calls_showcase_logged, length_app.
       simpl length. split; [lia | done]. }
  cbn [fs showcase_logged] in Hrun.
  destruct (fs_write _ _ _) as [[[]|e] t'] eqn:Hwrite;
    injection Hrun as <- <-;
    (split; [change (World t' (requests (showcase_logged w m)))
               with (World t' (requests w ++ [Showcase.completion_request m]));
             unfold calls; cbn [requests];
             rewrite length_fmap, length_app, length_fmap; simpl length; lia|]);
    [|done].
  intros response [= <-]. exists m, c. split; [done|]. split; [exact Hc|].
  split; [done|]. cbn.
  apply fs_write_ok in Hwrite as (_ & q & Hres & Hdir & ->).
  by apply fs_read_after_write.
Qed.

(** On the endless provider the showcase server stores the first piece
    after one request. *)
Lemma showcase_generate_stores_first_answer_witness :
  exists response w',
    Showcase.generate_design_system ascii_lower endless_llm sample_dir
      (GenerateSystemRequest.Build (py "Ocean") (py "calm")) sample_world
    = (Ok response, w') /\
    length (calls w') <= 1 /\
    GenerateSystemResponse.content response = py "<p>more</p>" /\
    is_html_complete ascii_lower (GenerateSystemResponse.content response)
    = false.
Proof.
  set (run := Showcase.generate_design_system ascii_lower endless_llm sample_dir
                (GenerateSystemRequest.Build (py "Ocean") (py "calm"))
                sample_world).
  assert (run = (Ok (generate_response (py "ocean.html") (py "<p>more</p>")),
                 snd run)) as Hrun
    by (rewrite (surjective_pairing run) at 1; f_equal).
  destruct (showcase_generate_stores_first_answer ascii_lower endless_llm
              sample_dir _ sample_world _ _ Hrun) as [Hlen _].
  eexists _, (snd run). split; [exact Hrun|]. split; [exact Hlen|].
  split; reflexivity.
Defined.

(** ** What a continuation request shows of the document *)

Lemma get_continuation_context_window before tail chars :
  0 < chars -> chars <= length tail ->
  get_continuation_context (before ++ tail) chars
  = get_continuation_context tail chars /\
  length (get_continuation_context tail chars) = chars.
Proof.
  intros Hpos Hlen. unfold get_continuation_context, last_chars.
  destruct chars as [|n]; [lia|]. rewrite length_app.
  assert (drop (length tail - S n) tail
          = if S n <? length tail then drop (length tail - S n) tail else tail)
    as Htail.
  { destruct (Nat.ltb_spec (S n) (length tail)); [done|].
    by replace (length tail - S n) with 0 by lia. }
  rewrite <- Htail.
  split.
  - destruct (Nat.ltb_spec (S n) (length before + length tail)) as [Hlt|Hge].
    + rewrite drop_app.
      rewrite (drop_ge before) by lia. cbn [app]. f_equal. lia.
    + assert (length before = 0) as Hnil by lia.
      destruct before; [|done]. cbn [app].
      by replace (length tail - S n) with 0 by (simpl in *; lia).
  - rewrite length_drop. lia.
Qed.

(** X17. A continuation request is one user message without a system
    message, and it shows the provider the last 2000 characters of the
    accumulated text and nothing before them: texts with the same last 2000
    characters give the same request. *)
Theorem continuation_request_window (before tail : str) :
  2000 <= length tail ->
  continuation_messages (before ++ tail) = continuation_messages tail /\
  exists context,
    continuation_messages tail = [(py "user", continuation_prompt context)] /\
    context `suffix_of` tail /\ length context = 2000.
Proof.
  intros Hlen. unfold continuation_messages.
  destruct (get_continuation_context_window before tail 2000) as [-> Hctx];
    [lia | done |].
  split; [done|]. exists (get_continuation_context tail 2000).
  split; [done|]. split; [|done].
  unfold get_continuation_context, last_chars.
  destruct (2000 <? length tail); [apply suffix_drop | done].
Qed.

(** A long document: what comes before its last 2000 characters does not
    reach the provider. *)
Lemma continuation_request_window_witness :
  continuation_messages (py "<html><body>" ++ replicate 2000 120%N)
  = continuation_messages (replicate 2000 120%N).
Proof.
  apply (continuation_request_window (py "<html><body>") (replicate 2000 120%N)).
  rewrite length_replicate. lia.
Defined.
